(** * space-agent: the chat persistence layer and the in-memory chat API

    A shallow embedding of
    - [src/backend/database_handlers/sq3_handler.py] (class [ChatDatabase]),
    - [src/backend/app.py] (the FastAPI endpoints over [chat_sessions]),
    and the properties of the specification that concern them.

    Clock readings ([datetime.now()]) and fresh identifiers ([uuid.uuid4()])
    come from the environment: every operation that reads one takes it as an
    argument. *)

From Stdlib Require Import ZArith Lia.
From stdpp Require Import base list strings gmap.

(** ** The SQLite engine, as far as [ChatDatabase] uses it *)

Module Sqlite.

(** A naive [datetime]; only its order matters. *)
Definition datetime := Z.

(** [sessions(session_id TEXT PRIMARY KEY, created_at, updated_at)] *)
Record session_row := SessionRow {
  session_id : string;
  created_at : datetime;
  updated_at : datetime
}.

(** [messages(id INTEGER PRIMARY KEY AUTOINCREMENT, session_id, role,
    content, timestamp, FOREIGN KEY (session_id) REFERENCES sessions ...)] *)
Record message_row := MessageRow {
  id : Z;
  msg_session_id : string;
  role : string;
  content : string;
  timestamp : datetime
}.

(** The database file once [init_db] has created the schema. Both tables
    are kept in rowid order; [sqlite_sequence] is the largest [id] that
    AUTOINCREMENT has handed out for [messages]. *)
Record database := Database {
  sessions : list session_row;
  messages : list message_row;
  sqlite_sequence : Z
}.

#[global] Instance session_row_eq_dec : EqDecision session_row.
Proof. solve_decision. Defined.
#[global] Instance message_row_eq_dec : EqDecision message_row.
Proof. solve_decision. Defined.
#[global] Instance database_eq_dec : EqDecision database.
Proof. solve_decision. Defined.

(** The exceptions of the [sqlite3] module that the handler can meet. *)
Inductive exn := IntegrityError | OperationalError.

Inductive result (A : Type) :=
  | Return (a : A)
  | Raise (e : exn).
Arguments Return {A} a.
Arguments Raise {A} e.

(** An open connection. [committed] is the file, [working] the file as the
    open transaction sees it. [foreign_keys] is the per-connection
    [PRAGMA foreign_keys]. [calls] counts the engine calls made on the
    connection and [fault] names the call at which the storage medium
    fails, if it does. *)
Record connection := Connection {
  committed : database;
  working : database;
  foreign_keys : bool;
  calls : nat;
  fault : option nat
}.

Definition medium_fails (c : connection) : bool :=
  match fault c with
  | Some n => Nat.eqb n (calls c)
  | None => false
  end.

Definition tick (c : connection) : connection :=
  Connection (committed c) (working c) (foreign_keys c) (S (calls c)) (fault c).

Definition set_working (d : database) (c : connection) : connection :=
  Connection (committed c) d (foreign_keys c) (calls c) (fault c).

(** [sqlite3.connect(path)]: SQLite leaves foreign-key enforcement off
    on a new connection until [PRAGMA foreign_keys = ON] is issued. *)
Definition connect (f : option nat) (d : database) : connection :=
  Connection d d false 0 f.

(** Code running against a connection: it returns or raises, and the
    connection is threaded through either way. *)
Definition cursor (A : Type) : Type := connection -> result A * connection.

#[global] Instance cursor_ret : MRet cursor := fun A a c => (Return a, c).
#[global] Instance cursor_bind : MBind cursor := fun A B k m c =>
  match m c with
  | (Return a, c') => k a c'
  | (Raise e, c') => (Raise e, c')
  end.

(** A data-changing statement: given the foreign-key setting and the
    tables, the new tables and the row count, or a constraint violation
    (in which case the statement changes nothing). *)
Definition statement := bool -> database -> result (database * nat).

(** [cursor.execute] of a data-changing statement. Python's [sqlite3]
    opens a transaction implicitly before the first of them; nothing
    reaches the file before [commit]. *)
Definition execute (s : statement) : cursor nat := fun c =>
  if medium_fails c then (Raise OperationalError, tick c)
  else match s (foreign_keys c) (working c) with
       | Return (d, n) => (Return n, set_working d (tick c))
       | Raise e => (Raise e, tick c)
       end.

(** [cursor.execute] of a SELECT followed by [fetchone]/[fetchall]. *)
Definition fetch {A} (q : database -> A) : cursor A := fun c =>
  if medium_fails c then (Raise OperationalError, tick c)
  else (Return (q (working c)), tick c).

(** [conn.commit()]: all or nothing. *)
Definition commit : cursor unit := fun c =>
  if medium_fails c then (Raise OperationalError, tick c)
  else (Return tt, Connection (working c) (working c) (foreign_keys c)
                              (S (calls c)) (fault c)).

(** [conn.rollback()] *)
Definition rollback (c : connection) : connection :=
  set_working (committed c) c.

(** [conn.close()]: what stays is what was committed. *)
Definition close (c : connection) : database := committed c.

(** [try: body / except Exception as e: conn.rollback(); raise e /
    finally: conn.close()] *)
Definition try_except_rollback {A} (body : cursor A) (c : connection)
  : result A * database :=
  match body c with
  | (Return a, c') => (Return a, close c')
  | (Raise e, c') => (Raise e, close (rollback c'))
  end.

(** [try: body / finally: conn.close()] *)
Definition try_finally {A} (body : cursor A) (c : connection)
  : result A * database :=
  match body c with
  | (r, c') => (r, close c')
  end.

(** *** The statements of [sq3_handler.py] *)

Definition has_session (d : database) (sid : string) : bool :=
  bool_decide (sid ∈ session_id <$> sessions d).

(** [INSERT INTO sessions (session_id, created_at, updated_at) VALUES (?, ?, ?)] *)
Definition insert_session (sid : string) (c u : datetime) : statement :=
  fun _ d =>
    if has_session d sid then Raise IntegrityError
    else Return (Database (sessions d ++ [SessionRow sid c u]) (messages d)
                          (sqlite_sequence d), 1).

(** [INSERT INTO messages (session_id, role, content, timestamp) VALUES (?, ?, ?, ?)] *)
Definition insert_message (sid r txt : string) (ts : datetime) : statement :=
  fun fk d =>
    if fk && negb (has_session d sid) then Raise IntegrityError
    else
      let i := (sqlite_sequence d + 1)%Z in
      Return (Database (sessions d) (messages d ++ [MessageRow i sid r txt ts]) i, 1).

Definition set_updated_at (ts : datetime) (sid : string) (s : session_row)
  : session_row :=
  if bool_decide (session_id s = sid)
  then SessionRow (session_id s) (created_at s) ts
  else s.

(** [UPDATE sessions SET updated_at = ? WHERE session_id = ?] *)
Definition update_session (ts : datetime) (sid : string) : statement :=
  fun _ d =>
    Return (Database (set_updated_at ts sid <$> sessions d) (messages d)
                     (sqlite_sequence d),
            length (filter (λ s, session_id s = sid) (sessions d))).

(** [DELETE FROM messages WHERE session_id = ?] *)
Definition delete_messages (sid : string) : statement :=
  fun _ d =>
    Return (Database (sessions d)
                     (filter (λ m, msg_session_id m ≠ sid) (messages d))
                     (sqlite_sequence d),
            length (filter (λ m, msg_session_id m = sid) (messages d))).

(** [DELETE FROM sessions WHERE session_id = ?]; with foreign keys on,
    ON DELETE CASCADE removes the messages of the deleted rows too. The
    row count is that of the [sessions] rows. *)
Definition delete_sessions (sid : string) : statement :=
  fun fk d =>
    let n := length (filter (λ s, session_id s = sid) (sessions d)) in
    let ms := if fk && bool_decide (0 < n)
              then filter (λ m, msg_session_id m ≠ sid) (messages d)
              else messages d in
    Return (Database (filter (λ s, session_id s ≠ sid) (sessions d)) ms
                     (sqlite_sequence d), n).

(** *** ORDER BY

    The sorter receives the rows in scan order and puts a row before the
    first row whose key is not smaller, so rows with equal keys stay in
    scan order. (SQL itself leaves the order among equal keys open.) *)

Section OrderBy.
Context {A : Type} (le : A -> A -> bool).

Fixpoint sorter_insert (x : A) (l : list A) : list A :=
  match l with
  | [] => [x]
  | y :: l' => if le x y then x :: l else y :: sorter_insert x l'
  end.

Fixpoint order_by (l : list A) : list A :=
  match l with
  | [] => []
  | x :: l' => sorter_insert x (order_by l')
  end.
End OrderBy.

(** *** The queries of [sq3_handler.py] *)

(** A row of [SELECT role, content, timestamp], as a dict. *)
Record message_dict := MessageDict {
  md_role : string;
  md_content : string;
  md_timestamp : datetime
}.

Definition message_columns (m : message_row) : message_dict :=
  MessageDict (role m) (content m) (timestamp m).

(** [SELECT role, content, timestamp FROM messages WHERE session_id = ?
    ORDER BY timestamp ASC] *)
Definition select_messages (sid : string) (d : database) : list message_dict :=
  message_columns <$>
    order_by (λ a b, (timestamp a <=? timestamp b)%Z)
             (filter (λ m, msg_session_id m = sid) (messages d)).

(** [SELECT 1 FROM sessions WHERE session_id = ?], [fetchone() is not None] *)
Definition select_one (sid : string) (d : database) : bool :=
  match filter (λ s, session_id s = sid) (sessions d) with
  | [] => false
  | _ :: _ => true
  end.

(** [SELECT session_id, created_at, updated_at FROM sessions
    WHERE session_id = ?], [fetchone()] *)
Definition select_session (sid : string) (d : database) : option session_row :=
  head (filter (λ s, session_id s = sid) (sessions d)).

(** [sessions s LEFT JOIN messages m ON s.session_id = m.session_id]:
    a session without messages yields one row with NULLs for [m]. *)
Definition left_join (ss : list session_row) (ms : list message_row)
  : list (session_row * option message_row) :=
  s ← ss;
  match filter (λ m, session_id s = msg_session_id m) ms with
  | [] => [(s, None)]
  | l => (λ m, (s, Some m)) <$> l
  end.

(** A row of the aggregate query, as a dict. *)
Record session_summary := SessionSummary {
  sum_session_id : string;
  sum_created_at : datetime;
  sum_updated_at : datetime;
  message_count : nat
}.

(** One output row per group: the bare columns come from a row of the
    group, [COUNT(m.id)] counts the rows whose [m.id] is not NULL. *)
Definition aggregate (g : list (session_row * option message_row))
  : option session_summary :=
  match g with
  | [] => None
  | (s, _) :: _ =>
      Some (SessionSummary (session_id s) (created_at s) (updated_at s)
              (length (filter (λ r, is_Some (snd r)) g)))
  end.

(** [GROUP BY s.session_id] *)
Definition group_by_session (j : list (session_row * option message_row))
  : list (list (session_row * option message_row)) :=
  (λ k, filter (λ r, session_id (fst r) = k) j) <$>
    remove_dups ((λ r, session_id (fst r)) <$> j).

(** [SELECT s.session_id, s.created_at, s.updated_at, COUNT(m.id) as
    message_count FROM sessions s LEFT JOIN messages m ON ... GROUP BY
    s.session_id ORDER BY s.updated_at DESC] *)
Definition select_summaries (d : database) : list session_summary :=
  order_by (λ a b, (sum_updated_at b <=? sum_updated_at a)%Z)
    (omap aggregate (group_by_session (left_join (sessions d) (messages d)))).

End Sqlite.

(** ** [class ChatDatabase] *)

Module ChatDatabase.
Import Sqlite.

(** [_get_connection]: a new connection per call; [row_factory] only
    changes how rows are presented. The first argument of every method
    is the medium fault of that call ([None]: the medium works). *)
Definition _get_connection (f : option nat) (d : database) : connection :=
  connect f d.

(** The file after [__init__] has run [init_db] on a new path. On an
    existing file the three CREATE ... IF NOT EXISTS change nothing. *)
Definition init_db : database := Database [] [] 0.

Definition create_session (f : option nat) (now : datetime) (d : database)
    (sid : string) : result session_row * database :=
  let conn := _get_connection f d in
  let created_at := now in
  try_except_rollback
    (_ ← execute (insert_session sid created_at created_at);
     _ ← commit;
     mret (SessionRow sid created_at created_at))
    conn.

Definition session_exists (f : option nat) (d : database) (sid : string)
  : result bool * database :=
  let conn := _get_connection f d in
  try_finally (fetch (select_one sid)) conn.

Definition add_message (f : option nat) (now : datetime) (d : database)
    (sid r txt : string) : result (string * message_dict) * database :=
  let conn := _get_connection f d in
  let timestamp := now in
  try_except_rollback
    (_ ← execute (insert_message sid r txt timestamp);
     _ ← execute (update_session timestamp sid);
     _ ← commit;
     mret (sid, MessageDict r txt timestamp))
    conn.

Definition get_messages (f : option nat) (d : database) (sid : string)
  : result (list message_dict) * database :=
  let conn := _get_connection f d in
  try_finally (fetch (select_messages sid)) conn.

Definition delete_session (f : option nat) (d : database) (sid : string)
  : result bool * database :=
  let conn := _get_connection f d in
  try_except_rollback
    (_ ← execute (delete_messages sid);
     rowcount ← execute (delete_sessions sid);
     let deleted := bool_decide (0 < rowcount) in
     _ ← commit;
     mret deleted)
    conn.

Definition list_sessions (f : option nat) (d : database)
  : result (list session_summary) * database :=
  let conn := _get_connection f d in
  try_finally (fetch select_summaries) conn.

Definition get_session (f : option nat) (d : database) (sid : string)
  : result (option session_row) * database :=
  let conn := _get_connection f d in
  try_finally (fetch (select_session sid)) conn.

End ChatDatabase.

(** ** [app.py]: the endpoints over the in-process [chat_sessions] *)

Module App.
Import Sqlite.

(** An element of [session["messages"]]; [timestamp] is the instant whose
    [isoformat()] the code stores. *)
Record chat_entry := ChatEntry {
  ce_role : string;
  ce_content : string;
  ce_timestamp : datetime
}.

(** A value of [chat_sessions]: [{"created_at": ..., "messages": [...]}] *)
Record session := Session {
  s_created_at : datetime;
  s_messages : list chat_entry
}.

(** What an endpoint call can see: the module-level dictionary of the
    process and the SQLite file of [ChatDatabase]. *)
Record world := World {
  chat_sessions : gmap string session;
  store : database
}.

(** [server_models.py] *)
Record StartChatResponse := mkStartChatResponse {
  scr_session_id : string;
  scr_message : string;
  scr_created_at : datetime
}.

Record ChatMessage := mkChatMessage { message : string }.

Record ChatResponse := mkChatResponse {
  cr_session_id : string;
  user_message : string;
  assistant_response : string;
  cr_timestamp : datetime
}.

Record ChatHistory := mkChatHistory {
  ch_session_id : string;
  ch_messages : list chat_entry
}.

(** An endpoint returns its response model or raises [HTTPException]. *)
Inductive http (A : Type) :=
  | OK (a : A)
  | HTTPException (status_code : Z) (detail : string).
Arguments OK {A} a.
Arguments HTTPException {A} status_code detail.

(** [POST /start_chat]; [uuid4] is [str(uuid.uuid4())]. *)
Definition start_chat (uuid4 : string) (now : datetime) (w : world)
  : http StartChatResponse * world :=
  let session_id := uuid4 in
  let chat_sessions' := <[session_id := Session now []]> (chat_sessions w) in
  (OK (mkStartChatResponse session_id
         "Chat session created successfully. Use this session_id to send messages."
         now),
   World chat_sessions' (store w)).

(** [POST /chat/{session_id}]; the three instants are the three
    [datetime.now()] of the body, in order. *)
Definition chat_with_space (t_user t_assistant t_response : datetime)
    (w : world) (session_id : string) (chat_message : ChatMessage)
  : http ChatResponse * world :=
  match chat_sessions w !! session_id with
  | None =>
      (HTTPException 404
         ("Session " +:+ session_id +:+
          " not found. Please start a new chat session."), w)
  | Some session =>
      let messages1 :=
        s_messages session ++ [ChatEntry "user" (message chat_message) t_user] in
      let assistant_response := "Echo: " +:+ message chat_message in
      let messages2 :=
        messages1 ++ [ChatEntry "assistant" assistant_response t_assistant] in
      (OK (mkChatResponse session_id (message chat_message) assistant_response
             t_response),
       World (<[session_id := Session (s_created_at session) messages2]>
                (chat_sessions w))
             (store w))
  end.

(** [GET /chat/{session_id}/history] *)
Definition get_chat_history (w : world) (session_id : string)
  : http ChatHistory * world :=
  match chat_sessions w !! session_id with
  | None =>
      (HTTPException 404 ("Session " +:+ session_id +:+ " not found."), w)
  | Some session => (OK (mkChatHistory session_id (s_messages session)), w)
  end.

(** [DELETE /chat/{session_id}] *)
Definition delete_session (w : world) (session_id : string)
  : http string * world :=
  match chat_sessions w !! session_id with
  | None =>
      (HTTPException 404 ("Session " +:+ session_id +:+ " not found."), w)
  | Some _ =>
      (OK ("Session " +:+ session_id +:+ " deleted successfully"),
       World (delete session_id (chat_sessions w)) (store w))
  end.

(** The requests that reach the four endpoints, with what the
    environment supplies to each. *)
Inductive request :=
  | POST_start_chat (uuid4 : string) (now : datetime)
  | POST_chat (session_id : string) (chat_message : ChatMessage)
              (t_user t_assistant t_response : datetime)
  | GET_history (session_id : string)
  | DELETE_chat (session_id : string).

Definition serve (w : world) (r : request) : world :=
  match r with
  | POST_start_chat u now => snd (start_chat u now w)
  | POST_chat sid m t1 t2 t3 => snd (chat_with_space t1 t2 t3 w sid m)
  | GET_history sid => snd (get_chat_history w sid)
  | DELETE_chat sid => snd (delete_session w sid)
  end.

(** The states after whole requests served one at a time, each handler
    running from its first line to its last before the next request is
    taken up; the process starts with [chat_sessions = {}], whatever the
    file holds. States in the middle of a handler, and the states reached
    when handlers interleave, are those of [Threads.reachable]. *)
Definition reachable_in_turn (w : world) : Prop :=
  ∃ (d : database) (rs : list request), w = foldl serve (World ∅ d) rs.

(** An endpoint that neither reads nor writes the store. *)
Definition store_frame {A} (endpoint : world -> http A * world) : Prop :=
  ∀ w : world,
    store (snd (endpoint w)) = store w ∧
    ∀ d : database,
      endpoint (World (chat_sessions w) d)
      = (fst (endpoint w), World (chat_sessions (snd (endpoint w))) d).

(** User and assistant entries alternate, starting with the user, and
    every assistant entry echoes the user entry before it. *)
Fixpoint echo_dialogue (l : list chat_entry) : Prop :=
  match l with
  | [] => True
  | [_] => False
  | u :: a :: l' =>
      ce_role u = "user" ∧ ce_role a = "assistant" ∧
      ce_content a = "Echo: " +:+ ce_content u ∧ echo_dialogue l'
  end.

End App.

(** ** Histories of storage calls *)

Module History.
Import Sqlite ChatDatabase.

(** A call of one of the three methods that write, with the clock
    reading it takes where it takes one. *)
Inductive call :=
  | CreateSession (sid : string) (now : datetime)
  | AddMessage (sid r txt : string) (now : datetime)
  | DeleteSession (sid : string).

(** A call together with the medium fault it meets. *)
Definition event : Type := option nat * call.

Definition step (d : database) (e : event) : database :=
  match e with
  | (f, CreateSession sid now) => snd (create_session f now d sid)
  | (f, AddMessage sid r txt now) => snd (add_message f now d sid r txt)
  | (f, DeleteSession sid) => snd (delete_session f d sid)
  end.

Definition run (d : database) (es : list event) : database := foldl step d es.

Definition reachable (d : database) : Prop := ∃ es, d = run init_db es.

(** The clock readings of a history, in call order. *)
Definition clock_readings (es : list event) : list datetime :=
  omap (λ e : event, match snd e with
            | CreateSession _ now => Some now
            | AddMessage _ _ _ now => Some now
            | DeleteSession _ => None
            end) es.

(** [chain lo l]: [l] never decreases and starts at [lo] or later. *)
Fixpoint chain (lo : datetime) (l : list datetime) : Prop :=
  match l with
  | [] => True
  | t :: l' => (lo <= t)%Z ∧ chain t l'
  end.

Definition nondecreasing (l : list datetime) : Prop :=
  match l with
  | [] => True
  | t :: l' => chain t l'
  end.

(** [rising lo l]: [l] strictly increases and starts after [lo]. *)
Fixpoint rising (lo : datetime) (l : list datetime) : Prop :=
  match l with
  | [] => True
  | t :: l' => (lo < t)%Z ∧ rising t l'
  end.

Definition increasing (l : list datetime) : Prop :=
  match l with
  | [] => True
  | t :: l' => rising t l'
  end.

(** [AddMessage] calls only, none meeting a fault. *)
Record add_call := AddCall {
  ac_session_id : string;
  ac_role : string;
  ac_content : string;
  ac_now : datetime
}.

Definition add_messages (d : database) (cs : list add_call) : database :=
  foldl (λ d c, snd (add_message None (ac_now c) d (ac_session_id c)
                                 (ac_role c) (ac_content c))) d cs.

Definition returned (c : add_call) : message_dict :=
  MessageDict (ac_role c) (ac_content c) (ac_now c).

End History.

(** ** The schema, as [init_db] may find it *)

Module Schema.
Import Sqlite.

(** A database file in which each object of the schema is there or not
    yet. [sequence] is the AUTOINCREMENT counter of [messages]. *)
Record file := File {
  sessions_table : option (list session_row);
  messages_table : option (list message_row);
  idx_messages_session : bool;
  sequence : Z
}.

(** A file that has the whole schema. *)
Definition of_database (d : database) : file :=
  File (Some (sessions d)) (Some (messages d)) true (sqlite_sequence d).

(** A path on which nothing was created yet. *)
Definition blank : file := File None None false 0.

(** [CREATE TABLE IF NOT EXISTS sessions (...)] *)
Definition create_sessions (x : file) : result file :=
  Return (File (Some (default [] (sessions_table x))) (messages_table x)
               (idx_messages_session x) (sequence x)).

(** [CREATE TABLE IF NOT EXISTS messages (...)] *)
Definition create_messages (x : file) : result file :=
  Return (File (sessions_table x) (Some (default [] (messages_table x)))
               (idx_messages_session x) (sequence x)).

(** [CREATE INDEX IF NOT EXISTS idx_messages_session ON messages(session_id)]:
    an error when there is no table to index. *)
Definition create_index (x : file) : result file :=
  match messages_table x with
  | None => Raise OperationalError
  | Some _ => Return (File (sessions_table x) (messages_table x) true (sequence x))
  end.

(** [cursor.execute] of a CREATE statement, as the [n]-th engine call of
    the connection. The [sqlite3] module opens its implicit transaction
    before INSERT, UPDATE and DELETE only, so a CREATE statement is on the
    file as soon as it has run. *)
Definition execute_ddl (f : option nat) (n : nat) (s : file -> result file)
    (x : file) : result unit * file :=
  if bool_decide (f = Some n) then (Raise OperationalError, x)
  else match s x with
       | Return x' => (Return tt, x')
       | Raise e => (Raise e, x)
       end.

(** [init_db]: the three CREATE statements in order. With no transaction
    open, [commit] and [rollback] have nothing to do. *)
Definition init_db (f : option nat) (x : file) : result unit * file :=
  match execute_ddl f 0 create_sessions x with
  | (Raise e, x1) => (Raise e, x1)
  | (Return _, x1) =>
      match execute_ddl f 1 create_messages x1 with
      | (Raise e, x2) => (Raise e, x2)
      | (Return _, x2) =>
          match execute_ddl f 2 create_index x2 with
          | (Raise e, x3) => (Raise e, x3)
          | (Return _, x3) => (Return tt, x3)
          end
      end
  end.

End Schema.

(** ** Request sequences against one session *)

Module Traffic.
Import Sqlite App.

(** The two entries that a [POST /chat/{session_id}] adds. *)
Definition exchange (m : ChatMessage) (t_user t_assistant : datetime)
  : list chat_entry :=
  [ChatEntry "user" (message m) t_user;
   ChatEntry "assistant" ("Echo: " +:+ message m) t_assistant].

(** What a request adds to the history of session [sid]. *)
Definition adds_to (sid : string) (r : request) : list chat_entry :=
  match r with
  | POST_chat sid' m t1 t2 _ =>
      if bool_decide (sid' = sid) then exchange m t1 t2 else []
  | _ => []
  end.

(** The requests that replace or remove the entry of [sid]. *)
Definition resets (sid : string) (r : request) : bool :=
  match r with
  | POST_start_chat u _ => bool_decide (u = sid)
  | DELETE_chat sid' => bool_decide (sid' = sid)
  | _ => false
  end.

Definition is_start_chat (r : request) : bool :=
  match r with
  | POST_start_chat _ _ => true
  | _ => false
  end.

End Traffic.

(** ** Handlers on worker threads *)

Module Threads.
Import Sqlite App.

(** The endpoints of [app.py] are plain [def] functions, which FastAPI
    runs on worker threads: a request can be taken up while another is
    between two statements of its handler. A session dict lives on the
    heap; [chat_sessions] binds identifiers to dicts, and a handler that
    has run [session = chat_sessions[session_id]] holds the dict itself. *)
Definition ref := nat.

(** [bound] is [chat_sessions]; [dicts] are the session dicts created so
    far, a reference being the position in the list; [file] is the store. *)
Record memory := Memory {
  bound : gmap string ref;
  dicts : list session;
  file : database
}.

(** What a whole-request view of the memory shows: [chat_sessions] with
    the dicts in place of the references. *)
Definition view (μ : memory) : world :=
  World (omap (λ r : ref, dicts μ !! r) (bound μ)) (file μ).

(** [session["messages"].append(e)] on the dict that [r] refers to. *)
Definition append_entry (r : ref) (e : chat_entry) (μ : memory) : memory :=
  Memory (bound μ)
         (alter (λ s, Session (s_created_at s) (s_messages s ++ [e])) r (dicts μ))
         (file μ).

(** Where a call of [chat_with_space] stands. *)
Inductive chat_pc :=
  | Arrived
  | Holding (session : ref)
  | UserStored (session : ref)
  | ReplyStored (session : ref)
  | Returned (response : http ChatResponse).

Record chat_call := ChatCall {
  cc_session_id : string;
  cc_message : ChatMessage;
  cc_pc : chat_pc
}.

(** The next stretch of a call, run without a switch to another thread:
    lines 63-70 (the check and [session = chat_sessions[session_id]]),
    lines 73-77 (the user entry), lines 81-94 (the reply and the assistant
    entry), lines 96-101 (the response). [now] is the clock reading of the
    stretch, where it takes one. *)
Definition chat_step (now : datetime) (c : chat_call) (μ : memory)
  : chat_call * memory :=
  let session_id := cc_session_id c in
  let chat_message := cc_message c in
  match cc_pc c with
  | Arrived =>
      match bound μ !! session_id with
      | None =>
          (ChatCall session_id chat_message
             (Returned (HTTPException 404
                ("Session " +:+ session_id +:+
                 " not found. Please start a new chat session."))), μ)
      | Some r => (ChatCall session_id chat_message (Holding r), μ)
      end
  | Holding r =>
      (ChatCall session_id chat_message (UserStored r),
       append_entry r (ChatEntry "user" (message chat_message) now) μ)
  | UserStored r =>
      let assistant_response := "Echo: " +:+ message chat_message in
      (ChatCall session_id chat_message (ReplyStored r),
       append_entry r (ChatEntry "assistant" assistant_response now) μ)
  | ReplyStored r =>
      let assistant_response := "Echo: " +:+ message chat_message in
      (ChatCall session_id chat_message
         (Returned (OK (mkChatResponse session_id (message chat_message)
                          assistant_response now))), μ)
  | Returned _ => (c, μ)
  end.

(** [start_chat] and [delete_session] in one stretch each. A new session
    gets a new dict; a deleted one is unbound, and a call that holds its
    dict still has it. *)
Definition start_chat (uuid4 : string) (now : datetime) (μ : memory) : memory :=
  Memory (<[uuid4 := length (dicts μ)]> (bound μ))
         (dicts μ ++ [Session now []])
         (file μ).

Definition delete_session (session_id : string) (μ : memory) : memory :=
  Memory (delete session_id (bound μ)) (dicts μ) (file μ).

(** The memory and the calls of [chat_with_space] that are under way. *)
Record config := Config {
  mem : memory;
  calls : list chat_call
}.

(** What can happen next: a [start_chat] or a delete runs, a chat request
    comes in, or the [i]-th call under way runs its next stretch. (A
    history request changes nothing and is left out.) *)
Inductive action :=
  | StartChat (uuid4 : string) (now : datetime)
  | Delete (session_id : string)
  | Accept (session_id : string) (chat_message : ChatMessage)
  | Advance (i : nat) (now : datetime).

Definition step (c : config) (a : action) : config :=
  match a with
  | StartChat u now => Config (start_chat u now (mem c)) (calls c)
  | Delete sid => Config (delete_session sid (mem c)) (calls c)
  | Accept sid m => Config (mem c) (calls c ++ [ChatCall sid m Arrived])
  | Advance i now =>
      match calls c !! i with
      | None => c
      | Some call =>
          Config (snd (chat_step now call (mem c)))
                 (<[i := fst (chat_step now call (mem c))]> (calls c))
      end
  end.

(** The states of the process, handlers interleaved as the scheduler
    likes, from the start with [chat_sessions = {}]. *)
Definition reachable (c : config) : Prop :=
  ∃ (d : database) (acts : list action),
    c = foldl step (Config (Memory ∅ [] d) []) acts.

(** One call of [chat_with_space] from its first line to its last with no
    other thread in between. *)
Definition chat_uninterrupted (t_user t_assistant t_response : datetime)
    (μ : memory) (session_id : string) (chat_message : ChatMessage)
  : chat_call * memory :=
  let '(c1, μ1) := chat_step t_user (ChatCall session_id chat_message Arrived) μ in
  let '(c2, μ2) := chat_step t_user c1 μ1 in
  let '(c3, μ3) := chat_step t_assistant c2 μ2 in
  chat_step t_response c3 μ3.

End Threads.

(** ** What the write methods do to the file *)

Import Sqlite ChatDatabase History.

Local Open Scope Z_scope.

(** The file after a committed [create_session], [add_message],
    [delete_session]. *)
Definition created (now : datetime) (d : database) (sid : string) : database :=
  Database (sessions d ++ [SessionRow sid now now]) (messages d)
           (sqlite_sequence d).

Definition added (now : datetime) (d : database) (sid r txt : string)
  : database :=
  Database (set_updated_at now sid <$> sessions d)
           (messages d ++ [MessageRow (sqlite_sequence d + 1) sid r txt now])
           (sqlite_sequence d + 1).

Definition deleted (d : database) (sid : string) : database :=
  Database (filter (λ s, session_id s ≠ sid) (sessions d))
           (filter (λ m, msg_session_id m ≠ sid) (messages d))
           (sqlite_sequence d).

(** Every session was created, and last written, no later than [hi]. *)
Definition stamped_by (hi : datetime) (d : database) : Prop :=
  Forall (λ s, created_at s <= updated_at s ∧ updated_at s <= hi) (sessions d).

(** Every message row belongs to a session that is there. *)
Definition no_orphans (d : database) : Prop :=
  Forall (λ m, msg_session_id m ∈ session_id <$> sessions d) (messages d).

(** Settle a closed decidable statement by evaluation. *)
Ltac by_decide := apply (bool_decide_unpack _); vm_compute; exact I.

(** Unfold a method down to the engine. *)
Ltac run_method :=
  unfold create_session, add_message, delete_session, session_exists,
    get_messages, list_sessions, get_session,
    try_except_rollback, try_finally, _get_connection, connect,
    mbind, cursor_bind, mret, cursor_ret, execute, fetch, commit,
    insert_session, insert_message, update_session, delete_messages,
    delete_sessions, rollback, close, set_working, tick, medium_fails;
  cbn -[has_session].

Lemma create_session_new now d sid :
  has_session d sid = false ->
  create_session None now d sid = (Return (SessionRow sid now now), created now d sid).
Proof.
  intros H. run_method. by rewrite H.
Qed.

Lemma create_session_duplicate f now d sid :
  has_session d sid = true ->
  ∃ e, create_session f now d sid = (Raise e, d).
Proof.
  intros H. destruct f as [[|n]|]; run_method; rewrite ?H; cbn; eauto.
Qed.

Lemma create_session_cases f now d sid :
  create_session f now d sid = create_session None now d sid
  ∨ ∃ e, create_session f now d sid = (Raise e, d).
Proof.
  destruct (has_session d sid) eqn:H.
  { right. by apply create_session_duplicate. }
  destruct f as [[|[|n]]|]; run_method; rewrite ?H; cbn; eauto.
Qed.

Lemma add_message_commits now d sid r txt :
  add_message None now d sid r txt
  = (Return (sid, MessageDict r txt now), added now d sid r txt).
Proof. reflexivity. Qed.

Lemma add_message_cases f now d sid r txt :
  add_message f now d sid r txt = add_message None now d sid r txt
  ∨ ∃ e, add_message f now d sid r txt = (Raise e, d).
Proof.
  destruct f as [[|[|[|n]]]|]; run_method; eauto.
Qed.

Lemma delete_session_commits d sid :
  delete_session None d sid
  = (Return (bool_decide
               (0 < length (filter (λ s, session_id s = sid) (sessions d)))%nat),
     deleted d sid).
Proof. reflexivity. Qed.

Lemma delete_session_cases f d sid :
  delete_session f d sid = delete_session None d sid
  ∨ ∃ e, delete_session f d sid = (Raise e, d).
Proof.
  destruct f as [[|[|[|n]]]|]; run_method; eauto.
Qed.

(** A step of a history leaves the file alone or commits the whole call. *)
Lemma step_cases d e :
  step d e = d ∨
  match snd e with
  | CreateSession sid now => has_session d sid = false ∧ step d e = created now d sid
  | AddMessage sid r txt now => step d e = added now d sid r txt
  | DeleteSession sid => step d e = deleted d sid
  end.
Proof.
  destruct e as [f [sid now|sid r txt now|sid]]; cbn [step snd].
  - destruct (has_session d sid) eqn:H.
    + left. by destruct (create_session_duplicate f now d sid H) as [e ->].
    + destruct (create_session_cases f now d sid) as [->|[e ->]]; [|by left].
      right. by rewrite create_session_new.
  - destruct (add_message_cases f now d sid r txt) as [->|[e ->]]; [|by left].
    right. by rewrite add_message_commits.
  - destruct (delete_session_cases f d sid) as [->|[e ->]]; [|by left].
    right. by rewrite delete_session_commits.
Qed.

Lemma filter_session_length d sid :
  (0 < length (filter (λ s, session_id s = sid) (sessions d)))%nat
  ↔ sid ∈ session_id <$> sessions d.
Proof.
  induction (sessions d) as [|s l IH].
  - cbn. split; [lia | by intros ?%elem_of_nil].
  - rewrite filter_cons, fmap_cons, elem_of_cons.
    case_decide; cbn; [split; auto with lia|].
    rewrite IH. split; [by right|]. by intros [?|?]; [congruence|].
Qed.

Lemma has_session_select_one d sid : select_one sid d = has_session d sid.
Proof.
  unfold select_one, has_session.
  pose proof (filter_session_length d sid) as H.
  destruct (filter _ (sessions d)); cbn in H.
  - symmetry. apply bool_decide_eq_false. rewrite <- H. lia.
  - symmetry. apply bool_decide_eq_true. rewrite <- H. lia.
Qed.

(** ** [add_message] on a session that does not exist *)

(** With enforcement on, the engine refuses the message row of an
    unknown session: this is what the FOREIGN KEY clause of the schema
    asks for, and what the connections of [_get_connection] never turn on. *)
Lemma insert_message_foreign_key d sid r txt ts c :
  foreign_keys c = true -> medium_fails c = false -> working c = d ->
  has_session d sid = false ->
  fst (execute (insert_message sid r txt ts) c) = Raise IntegrityError.
Proof.
  intros Hfk Hm <- Hs. unfold execute, insert_message.
  by rewrite Hm, Hfk, Hs.
Qed.

(** C1. [add_message("missing", "user", "x")] on a new database, where no
    session "missing" exists: the call returns the message dict instead of
    failing, and the row is committed to [messages]. *)
Theorem add_message_missing_session_persists :
  has_session init_db "missing" = false ∧
  add_message None 7 init_db "missing" "user" "x"
  = (Return ("missing", MessageDict "user" "x" 7),
     Database [] [MessageRow 1 "missing" "user" "x" 7] 1).
Proof. split; reflexivity. Qed.

(** ** [add_message] is one transaction *)

Lemma set_updated_at_session_id now sid s :
  session_id (set_updated_at now sid s) = session_id s.
Proof. unfold set_updated_at. by case_bool_decide. Qed.

Lemma set_updated_at_created_at now sid s :
  created_at (set_updated_at now sid s) = created_at s.
Proof. unfold set_updated_at. by case_bool_decide. Qed.

Lemma set_updated_at_hit now sid s :
  session_id s = sid -> updated_at (set_updated_at now sid s) = now.
Proof. intros H. unfold set_updated_at. by rewrite bool_decide_eq_true_2. Qed.

Lemma set_updated_at_miss now sid s :
  session_id s ≠ sid -> set_updated_at now sid s = s.
Proof. intros H. unfold set_updated_at. by rewrite bool_decide_eq_false_2. Qed.

Lemma select_updated now sid (l : list session_row) :
  sid ∈ session_id <$> l ->
  ∃ s, head (filter (λ s, session_id s = sid) (set_updated_at now sid <$> l))
       = Some s ∧ updated_at s = now.
Proof.
  induction l as [|s l IH]; [by intros ?%elem_of_nil|].
  rewrite !fmap_cons, filter_cons, elem_of_cons, set_updated_at_session_id.
  intros Hin. destruct (decide (session_id s = sid)) as [Hs|Hs].
  - eexists. split; [reflexivity|]. by apply set_updated_at_hit.
  - apply IH. destruct Hin as [Heq|Hin]; [congruence|done].
Qed.

(** C3. For a session that exists, whatever fault the medium has during
    the call, [add_message] either raises and leaves the file exactly as
    it was, or returns and has committed both effects: the message row is
    appended and the session's [updated_at] is the message's timestamp.
    When the medium has no fault it returns. *)
Theorem add_message_atomic f now d sid r txt :
  sid ∈ session_id <$> sessions d ->
  ((∃ e, add_message f now d sid r txt = (Raise e, d))
   ∨ (∃ d',
        add_message f now d sid r txt = (Return (sid, MessageDict r txt now), d')
        ∧ messages d'
          = messages d ++ [MessageRow (sqlite_sequence d + 1) sid r txt now]
        ∧ sessions d' = set_updated_at now sid <$> sessions d
        ∧ ∃ s, select_session sid d' = Some s ∧ updated_at s = now
               ∧ timestamp <$> last (messages d') = Some (updated_at s)))
  ∧ (f = None -> fst (add_message f now d sid r txt)
                 = Return (sid, MessageDict r txt now)).
Proof.
  intros Hin. split; [|by intros ->].
  destruct (add_message_cases f now d sid r txt) as [->|[e ->]]; [right|left; eauto].
  rewrite add_message_commits. eexists; split; [reflexivity|].
  cbn. do 2 (split; [reflexivity|]).
  unfold select_session; cbn. rewrite last_snoc; cbn.
  destruct (select_updated now sid (sessions d) Hin) as (s & Hs & Hu).
  exists s. by rewrite Hs, Hu.
Qed.

Lemma add_message_atomic_witness :
  (∃ e, add_message (Some 1%nat) 9 (Database [SessionRow "s1" 1 1] [] 0)
          "s1" "user" "hi"
        = (Raise e, Database [SessionRow "s1" 1 1] [] 0))
  ∧ fst (add_message None 9 (Database [SessionRow "s1" 1 1] [] 0)
           "s1" "user" "hi")
    = Return ("s1", MessageDict "user" "hi" 9).
Proof.
  split.
  - destruct (add_message_atomic (Some 1%nat) 9
                (Database [SessionRow "s1" 1 1] [] 0) "s1" "user" "hi")
      as [[H|[d' [H _]]] _]; [by_decide|exact H|discriminate H].
  - apply (add_message_atomic None 9 (Database [SessionRow "s1" 1 1] [] 0)
             "s1" "user" "hi"); [by_decide|reflexivity].
Defined.

(** ** [delete_session] *)

(** C10. [delete_session] returns [True] exactly when a [sessions] row
    with that id existed, and in either case no [messages] row with that
    session id is left; in particular, when the session is absent it
    returns [False], leaves [sessions] as it was and still removes the
    message rows that bear the id. *)
Theorem delete_session_reports_existence d sid :
  delete_session None d sid
  = (Return (bool_decide (sid ∈ session_id <$> sessions d)), deleted d sid)
  ∧ Forall (λ m, msg_session_id m ≠ sid) (messages (deleted d sid))
  ∧ (sid ∉ session_id <$> sessions d ->
     delete_session None d sid
     = (Return false,
        Database (sessions d)
                 (filter (λ m, msg_session_id m ≠ sid) (messages d))
                 (sqlite_sequence d))).
Proof.
  assert (Hret : delete_session None d sid
    = (Return (bool_decide (sid ∈ session_id <$> sessions d)), deleted d sid)).
  { rewrite delete_session_commits. do 2 f_equal.
    apply bool_decide_ext, filter_session_length. }
  split; [exact Hret|]. split.
  - cbn. apply Forall_forall. by intros m [? _]%list_elem_of_filter.
  - intros Hno. rewrite Hret, bool_decide_eq_false_2 by done.
    unfold deleted. do 3 f_equal.
    clear Hret. induction (sessions d) as [|s l IH]; [done|].
    cbn in Hno. apply not_elem_of_cons in Hno as [Hne Hno].
    rewrite filter_cons, decide_True by congruence. f_equal. by apply IH.
Qed.

Lemma delete_session_reports_existence_witness :
  delete_session None
    (Database [SessionRow "s1" 1 1]
       [MessageRow 1 "ghost" "user" "x" 2; MessageRow 2 "s1" "user" "y" 3] 2)
    "ghost"
  = (Return false,
     Database [SessionRow "s1" 1 1] [MessageRow 2 "s1" "user" "y" 3] 2).
Proof.
  apply (delete_session_reports_existence
           (Database [SessionRow "s1" 1 1]
              [MessageRow 1 "ghost" "user" "x" 2; MessageRow 2 "s1" "user" "y" 3] 2)
           "ghost").
  by_decide.
Defined.

(** ** The sorter *)

Section OrderByFacts.
Context {A : Type} (le : A -> A -> bool).

Lemma sorter_insert_perm x l : sorter_insert le x l ≡ₚ x :: l.
Proof.
  induction l as [|y l IH]; cbn; [done|].
  destruct (le x y); [done|]. by rewrite IH, Permutation_swap.
Qed.

Lemma order_by_perm l : order_by le l ≡ₚ l.
Proof.
  induction l as [|x l IH]; cbn; [done|].
  by rewrite sorter_insert_perm, IH.
Qed.

Lemma order_by_length l : length (order_by le l) = length l.
Proof. by rewrite order_by_perm. Qed.

Lemma order_by_elem_of x l : x ∈ order_by le l ↔ x ∈ l.
Proof. by rewrite order_by_perm. Qed.
End OrderByFacts.

(** ** Identifiers are unique in every reachable file *)

Lemma has_session_false d sid :
  has_session d sid = false ↔ sid ∉ session_id <$> sessions d.
Proof. unfold has_session. apply bool_decide_eq_false. Qed.

Lemma session_ids_updated now sid (l : list session_row) :
  session_id <$> (set_updated_at now sid <$> l) = session_id <$> l.
Proof.
  rewrite <- list_fmap_compose. apply list_fmap_ext.
  intros _ s _. apply set_updated_at_session_id.
Qed.

Lemma session_ids_filter sid (l : list session_row) :
  session_id <$> filter (λ s, session_id s ≠ sid) l
  = filter (λ k, k ≠ sid) (session_id <$> l).
Proof.
  induction l as [|s l IH]; [done|].
  rewrite fmap_cons, !filter_cons. case_decide; [|done].
  by rewrite fmap_cons, IH.
Qed.

Lemma step_NoDup d e :
  NoDup (session_id <$> sessions d) -> NoDup (session_id <$> sessions (step d e)).
Proof.
  intros Hd. destruct (step_cases d e) as [->|H]; [done|].
  destruct e as [f [sid now|sid r txt now|sid]]; cbn [snd] in H.
  - destruct H as [Hnew ->]. cbn. rewrite fmap_app. apply NoDup_app.
    split; [done|]. split; [|apply NoDup_singleton].
    intros k Hk ->%list_elem_of_singleton. by apply has_session_false in Hnew.
  - rewrite H. cbn. by rewrite session_ids_updated.
  - rewrite H. cbn. rewrite session_ids_filter. by apply NoDup_filter.
Qed.

Lemma reachable_ind (P : database -> Prop) :
  P init_db -> (∀ d e, History.reachable d -> P d -> P (step d e)) ->
  ∀ d, History.reachable d -> P d.
Proof.
  intros H0 Hstep d [es ->]. induction es as [|e es IH] using rev_ind; [done|].
  unfold run. rewrite foldl_snoc. apply Hstep; [by exists es|exact IH].
Qed.

Lemma reachable_NoDup d :
  History.reachable d -> NoDup (session_id <$> sessions d).
Proof.
  revert d. apply (reachable_ind (λ d, NoDup (session_id <$> sessions d))).
  - apply NoDup_nil_2.
  - intros d e _. apply step_NoDup.
Qed.

(** ** [list_sessions] against [get_messages] *)

Lemma filter_keeps_all {A} (P : A -> Prop) `{!∀ x, Decision (P x)} (l : list A) :
  Forall P l -> filter P l = l.
Proof.
  induction 1 as [|x l Hx _ IH]; [done|]. by rewrite filter_cons_True, IH.
Qed.

Lemma filter_keeps_none {A} (P : A -> Prop) `{!∀ x, Decision (P x)} (l : list A) :
  Forall (λ x, ¬ P x) l -> filter P l = [].
Proof.
  induction 1 as [|x l Hx _ IH]; [done|]. by rewrite filter_cons_False, IH.
Qed.

Lemma left_join_cons s ss ms :
  left_join (s :: ss) ms = left_join [s] ms ++ left_join ss ms.
Proof. unfold left_join. cbn. by rewrite app_nil_r. Qed.

Lemma left_join_fst ss ms r : r ∈ left_join ss ms -> fst r ∈ ss.
Proof.
  unfold left_join. rewrite list_elem_of_bind. intros (s & Hr & Hs).
  destruct (filter _ ms) as [|m l].
  - apply list_elem_of_singleton in Hr as ->. done.
  - change (r ∈ (λ m, (s, Some m)) <$> (m :: l)) in Hr.
    apply list_elem_of_fmap in Hr as (m' & -> & _). done.
Qed.

(** The rows of one session in the join: as many rows with a message as
    the session has messages. *)
Lemma left_join_single s ms :
  Forall (λ r, fst r = s) (left_join [s] ms) ∧
  length (filter (λ r : session_row * option message_row, is_Some (snd r))
            (left_join [s] ms))
  = length (filter (λ m, msg_session_id m = session_id s) ms).
Proof.
  unfold left_join. cbn. rewrite app_nil_r.
  rewrite (list_filter_iff (λ m, msg_session_id m = session_id s)
                           (λ m, session_id s = msg_session_id m))
    by (intros; split; congruence).
  destruct (filter _ ms) as [|m l] eqn:Hf.
  - split; [by repeat constructor|].
    rewrite filter_cons, decide_False; [done|]. by intros [? ?].
  - change (Forall (λ r, fst r = s) ((λ m, (s, Some m)) <$> (m :: l)) ∧
            length (filter (λ r : session_row * option message_row,
                              is_Some (snd r))
                      ((λ m, (s, Some m)) <$> (m :: l)))
            = length (m :: l)).
    split.
    + apply Forall_forall. by intros r (m' & -> & _)%list_elem_of_fmap.
    + generalize (m :: l). clear. intros l. induction l as [|m l IH]; [done|].
      rewrite fmap_cons, filter_cons, decide_True by (by eexists). cbn. by rewrite IH.
Qed.

Lemma join_group_count ss ms k :
  NoDup (session_id <$> ss) ->
  length (filter (λ r : session_row * option message_row, is_Some (snd r))
            (filter (λ r, session_id (fst r) = k) (left_join ss ms)))
  = if decide (k ∈ session_id <$> ss)
    then length (filter (λ m, msg_session_id m = k) ms) else 0%nat.
Proof.
  induction ss as [|s ss IH]; intros Hnd.
  { cbn. by rewrite decide_False by apply not_elem_of_nil. }
  rewrite fmap_cons in Hnd. apply NoDup_cons in Hnd as [Hs Hnd].
  rewrite left_join_cons, !filter_app, length_app, (IH Hnd), fmap_cons.
  destruct (left_join_single s ms) as [Hall Hlen].
  destruct (decide (session_id s = k)) as [<-|Hne].
  - rewrite (decide_False (P := session_id s ∈ session_id <$> ss)) by done.
    rewrite decide_True by apply list_elem_of_here.
    rewrite Nat.add_0_r, <- Hlen.
    replace (filter (λ r, session_id (fst r) = session_id s) (left_join [s] ms))
      with (left_join [s] ms); [done|].
    symmetry. apply filter_keeps_all.
    eapply Forall_impl; [exact Hall|]. by intros r ->.
  - replace (filter (λ r, session_id (fst r) = k) (left_join [s] ms))
      with (@nil (session_row * option message_row)).
    + cbn [filter length Nat.add].
      destruct (decide (k ∈ session_id <$> ss)) as [Hin|Hin].
      * by rewrite decide_True by (by apply list_elem_of_further).
      * rewrite decide_False; [done|].
        by intros [?|?]%elem_of_cons; [congruence|].
    + symmetry. apply filter_keeps_none.
      eapply Forall_impl; [exact Hall|]. by intros r ->.
Qed.

Lemma aggregate_group j k g s :
  g = filter (λ r : session_row * option message_row, session_id (fst r) = k) j ->
  aggregate g = Some s ->
  sum_session_id s = k ∧
  message_count s = length (filter (λ r, is_Some (snd r)) g).
Proof.
  intros Hg Hs. destruct g as [|[s0 o] g']; [done|].
  cbn in Hs. injection Hs as <-. cbn [sum_session_id message_count]. split; [|done].
  assert (Hin : (s0, o) ∈ filter (λ r : session_row * option message_row,
                                    session_id (fst r) = k) j)
    by (rewrite <- Hg; apply list_elem_of_here).
  by apply list_elem_of_filter in Hin as [? _].
Qed.

Lemma select_summaries_count d s :
  NoDup (session_id <$> sessions d) ->
  s ∈ select_summaries d ->
  sum_session_id s ∈ session_id <$> sessions d ∧
  message_count s
  = length (filter (λ m, msg_session_id m = sum_session_id s) (messages d)).
Proof.
  intros Hnd. unfold select_summaries. rewrite order_by_elem_of.
  rewrite list_elem_of_omap. intros (g & Hg & Hs).
  unfold group_by_session in Hg.
  apply list_elem_of_fmap in Hg as (k & Hg & Hk).
  apply elem_of_remove_dups, list_elem_of_fmap in Hk as (r & -> & Hr).
  apply left_join_fst in Hr.
  destruct (aggregate_group _ _ _ _ Hg Hs) as [Hid Hcnt].
  rewrite Hid, Hcnt, Hg, join_group_count by done.
  split; [by apply list_elem_of_fmap_2|].
  by rewrite decide_True by (by apply list_elem_of_fmap_2).
Qed.

(** C5. In every reachable file, [list_sessions] returns, and for every
    summary in its result [get_messages] on the summary's session id
    returns a list whose length is the summary's [message_count]. *)
Theorem list_sessions_message_count d :
  History.reachable d ->
  ∃ l, list_sessions None d = (Return l, d) ∧
    ∀ s, s ∈ l ->
      ∃ ms, get_messages None d (sum_session_id s) = (Return ms, d)
            ∧ message_count s = length ms.
Proof.
  intros Hd%reachable_NoDup. exists (select_summaries d). split; [done|].
  intros s Hs. exists (select_messages (sum_session_id s) d). split; [done|].
  destruct (select_summaries_count d s Hd Hs) as [_ ->].
  unfold select_messages. by rewrite length_fmap, order_by_length.
Qed.

Lemma list_sessions_message_count_witness :
  ∃ l, list_sessions None
         (run init_db [(None, CreateSession "s1" 1);
                       (None, AddMessage "s1" "user" "hi" 2);
                       (None, CreateSession "s2" 3)])
       = (Return l,
          run init_db [(None, CreateSession "s1" 1);
                       (None, AddMessage "s1" "user" "hi" 2);
                       (None, CreateSession "s2" 3)]) ∧
    ∀ s, s ∈ l ->
      ∃ ms, get_messages None
              (run init_db [(None, CreateSession "s1" 1);
                            (None, AddMessage "s1" "user" "hi" 2);
                            (None, CreateSession "s2" 3)])
              (sum_session_id s)
            = (Return ms,
               run init_db [(None, CreateSession "s1" 1);
                            (None, AddMessage "s1" "user" "hi" 2);
                            (None, CreateSession "s2" 3)])
            ∧ message_count s = length ms.
Proof.
  apply (list_sessions_message_count
           (run init_db [(None, CreateSession "s1" 1);
                         (None, AddMessage "s1" "user" "hi" 2);
                         (None, CreateSession "s2" 3)])).
  eexists. reflexivity.
Defined.

(** ** Timestamps and the clock *)

Lemma chain_nondecreasing lo l : chain lo l -> nondecreasing l.
Proof. destruct l as [|t l]; [done|]. by intros [_ ?]. Qed.

Lemma nondecreasing_chain t l : nondecreasing (t :: l) -> chain t (t :: l).
Proof. cbn. intros H. split; [lia|done]. Qed.

Lemma chain_tail lo t l : chain lo (t :: l) -> nondecreasing (t :: l).
Proof. by intros [_ ?]. Qed.

Section SorterOrder.
Context {A : Type} (key : A -> datetime).

(** On rows that already arrive in key order the sorter changes nothing. *)
Lemma order_by_sorted l :
  nondecreasing (key <$> l) -> order_by (λ a b, key a <=? key b) l = l.
Proof.
  induction l as [|x l IH]; [done|]. intros H. cbn [order_by].
  rewrite IH by (destruct l; [done|by destruct H]).
  destruct l as [|y l]; [done|]. cbn.
  destruct H as [H _]. by rewrite (proj2 (Z.leb_le _ _) H).
Qed.

Lemma sorter_insert_chain lo x l :
  lo <= key x -> chain lo (key <$> l) ->
  chain lo (key <$> sorter_insert (λ a b, key a <=? key b) x l).
Proof.
  revert lo. induction l as [|y l IH]; intros lo Hx Hl; cbn; [done|].
  destruct (Z.leb_spec (key x) (key y)) as [Hle|Hlt].
  - cbn. destruct Hl as [? ?]. done.
  - cbn. destruct Hl as [? ?]. split; [done|]. apply IH; [lia|done].
Qed.

Lemma order_by_chain lo l :
  Forall (λ a, lo <= key a) l -> chain lo (key <$> order_by (λ a b, key a <=? key b) l).
Proof.
  induction 1 as [|x l Hx _ IH]; [done|]. cbn [order_by].
  by apply sorter_insert_chain.
Qed.

(** What leaves the sorter is in key order. *)
Lemma order_by_nondecreasing l : nondecreasing (key <$> order_by (λ a b, key a <=? key b) l).
Proof.
  assert (∃ lo, Forall (λ a, lo <= key a) l) as [lo Hlo].
  { induction l as [|x l [lo IH]]; [by exists 0|].
    exists (Z.min lo (key x)). constructor; [lia|].
    eapply Forall_impl; [exact IH|]. intros; cbn in *; lia. }
  eapply chain_nondecreasing, order_by_chain, Hlo.
Qed.

Lemma chain_lower_bound lo l : chain lo (key <$> l) -> Forall (λ a, lo <= key a) l.
Proof.
  revert lo. induction l as [|x l IH]; intros lo; [by constructor|].
  intros [Hx Hl]. constructor; [done|].
  eapply Forall_impl; [exact (IH _ Hl)|]. intros; cbn in *; lia.
Qed.

Lemma rising_lower_bound lo l : rising lo (key <$> l) -> Forall (λ a, lo < key a) l.
Proof.
  revert lo. induction l as [|x l IH]; intros lo; [by constructor|].
  intros [Hx Hl]. constructor; [done|].
  eapply Forall_impl; [exact (IH _ Hl)|]. intros; cbn in *; lia.
Qed.

(** When the keys strictly increase in scan order, there is only one way
    to return the rows in key order, whatever a sorter does with equal
    keys: the scan order. *)
Lemma sorted_permutation_unique l l' :
  increasing (key <$> l) -> l' ≡ₚ l -> nondecreasing (key <$> l') -> l' = l.
Proof.
  revert l'. induction l as [|x l IH]; intros l' Hl Hperm Hl'.
  { by apply Permutation_nil_r in Hperm. }
  destruct l' as [|y l']; [by apply Permutation_nil_cons in Hperm|].
  apply rising_lower_bound in Hl as Hmin.
  apply chain_lower_bound in Hl' as Hmin'.
  assert (y = x) as ->.
  { assert (Hy : y ∈ x :: l) by (rewrite <- Hperm; apply list_elem_of_here).
    apply elem_of_cons in Hy as [?|Hy]; [done|exfalso].
    assert (Hx : x ∈ y :: l') by (rewrite Hperm; apply list_elem_of_here).
    apply elem_of_cons in Hx as [->|Hx].
    - rewrite Forall_forall in Hmin. specialize (Hmin _ Hy). cbn in Hmin. lia.
    - rewrite Forall_forall in Hmin, Hmin'.
      specialize (Hmin _ Hy). specialize (Hmin' _ Hx). cbn in *. lia. }
  f_equal. apply IH.
  - destruct l as [|z l]; [done|]. by destruct Hl.
  - by apply Permutation_cons_inv in Hperm.
  - destruct l' as [|z l']; [done|]. by destruct Hl'.
Qed.
End SorterOrder.

(** ** [get_messages] after a series of [add_message] *)

Lemma add_messages_rows d sid cs :
  message_columns <$>
    filter (λ m, msg_session_id m = sid) (messages (add_messages d cs))
  = (message_columns <$> filter (λ m, msg_session_id m = sid) (messages d))
    ++ (returned <$> filter (λ c, ac_session_id c = sid) cs).
Proof.
  revert d. induction cs as [|c cs IH]; intros d.
  { cbn. by rewrite app_nil_r. }
  change (add_messages d (c :: cs))
    with (add_messages (added (ac_now c) d (ac_session_id c) (ac_role c)
                              (ac_content c)) cs).
  rewrite IH. cbn [added messages]. rewrite filter_app, fmap_app, <- app_assoc.
  f_equal. rewrite (filter_cons _ c), filter_cons, filter_nil. cbn [msg_session_id].
  destruct (decide (ac_session_id c = sid)); [|done].
  by rewrite fmap_cons.
Qed.

Lemma message_timestamps (l : list message_row) :
  timestamp <$> l = md_timestamp <$> (message_columns <$> l).
Proof. by rewrite <- list_fmap_compose. Qed.

(** C2, as the code has it. Take a session without messages and any
    series of committed [add_message] calls, on it and on other sessions.
    [get_messages] then returns exactly the messages of the calls made on
    the session, in ascending timestamp order; this is the order of the
    calls whenever the clock readings of those calls never decrease. *)
Theorem get_messages_call_order d sid cs :
  filter (λ m, msg_session_id m = sid) (messages d) = [] ->
  ∃ ms,
    get_messages None (add_messages d cs) sid = (Return ms, add_messages d cs)
    ∧ ms ≡ₚ returned <$> filter (λ c, ac_session_id c = sid) cs
    ∧ length ms = length (filter (λ c, ac_session_id c = sid) cs)
    ∧ nondecreasing (md_timestamp <$> ms)
    ∧ (nondecreasing (ac_now <$> filter (λ c, ac_session_id c = sid) cs) ->
       ms = returned <$> filter (λ c, ac_session_id c = sid) cs).
Proof.
  intros Hempty. exists (select_messages sid (add_messages d cs)).
  split; [done|].
  pose proof (add_messages_rows d sid cs) as Hrows.
  rewrite Hempty in Hrows. cbn [fmap list_fmap app] in Hrows.
  assert (Hperm : select_messages sid (add_messages d cs)
                  ≡ₚ returned <$> filter (λ c, ac_session_id c = sid) cs).
  { unfold select_messages. by rewrite order_by_perm, Hrows. }
  split; [exact Hperm|]. split; [by rewrite Hperm, length_fmap|]. split.
  - unfold select_messages. rewrite <- message_timestamps.
    apply (order_by_nondecreasing timestamp).
  - intros Hclock. unfold select_messages.
    rewrite (order_by_sorted timestamp); [exact Hrows|].
    rewrite message_timestamps, Hrows, <- list_fmap_compose. exact Hclock.
Qed.

Lemma get_messages_call_order_witness :
  ∃ ms,
    get_messages None
      (add_messages (created 1 init_db "s1")
         [AddCall "s1" "user" "hi" 2; AddCall "s2" "user" "x" 2;
          AddCall "s1" "assistant" "hello" 2]) "s1"
    = (Return ms,
       add_messages (created 1 init_db "s1")
         [AddCall "s1" "user" "hi" 2; AddCall "s2" "user" "x" 2;
          AddCall "s1" "assistant" "hello" 2])
    ∧ ms = [MessageDict "user" "hi" 2; MessageDict "assistant" "hello" 2].
Proof.
  destruct (get_messages_call_order (created 1 init_db "s1") "s1"
              [AddCall "s1" "user" "hi" 2; AddCall "s2" "user" "x" 2;
               AddCall "s1" "assistant" "hello" 2] eq_refl)
    as (ms & Hget & _ & _ & _ & Horder).
  exists ms. split; [exact Hget|]. apply Horder.
  vm_compute. intuition discriminate.
Defined.

(** C2 as stated does not hold: the second call reads an earlier clock
    than the first, and [ORDER BY timestamp] returns its message first. *)
Lemma get_messages_not_call_order :
  fst (get_messages None
         (add_messages (created 1 init_db "s1")
            [AddCall "s1" "user" "a" 5; AddCall "s1" "assistant" "b" 3]) "s1")
  = Return [MessageDict "assistant" "b" 3; MessageDict "user" "a" 5]
  ∧ fst (get_messages None
           (add_messages (created 1 init_db "s1")
              [AddCall "s1" "user" "a" 5; AddCall "s1" "assistant" "b" 3]) "s1")
    ≠ Return (returned <$> [AddCall "s1" "user" "a" 5;
                            AddCall "s1" "assistant" "b" 3]).
Proof. split; [reflexivity|discriminate]. Qed.

(** ** [updated_at] against [created_at] *)

Lemma stamped_by_mono hi hi' d : hi <= hi' -> stamped_by hi d -> stamped_by hi' d.
Proof.
  intros Hle H. unfold stamped_by. eapply Forall_impl; [exact H|].
  intros s [? ?]. cbn. lia.
Qed.

Lemma created_stamped now d sid :
  stamped_by now d -> stamped_by now (created now d sid).
Proof.
  intros H. unfold stamped_by, created. cbn [sessions].
  apply Forall_app. split; [done|]. repeat constructor; cbn; lia.
Qed.

Lemma added_stamped now d sid r txt :
  stamped_by now d -> stamped_by now (added now d sid r txt).
Proof.
  unfold stamped_by, added. cbn [sessions]. rewrite Forall_fmap.
  intros H. eapply Forall_impl; [exact H|]. intros s [? ?]. cbn.
  rewrite set_updated_at_created_at.
  destruct (decide (session_id s = sid)) as [Hs|Hs].
  - rewrite (set_updated_at_hit _ _ _ Hs). lia.
  - rewrite (set_updated_at_miss _ _ _ Hs). lia.
Qed.

Lemma deleted_stamped hi d sid : stamped_by hi d -> stamped_by hi (deleted d sid).
Proof.
  unfold stamped_by, deleted. cbn [sessions]. rewrite !Forall_forall.
  intros H s [_ Hs]%list_elem_of_filter. by apply H.
Qed.

Lemma run_stamped es : ∀ d lo,
  stamped_by lo d -> chain lo (clock_readings es) ->
  ∃ hi, stamped_by hi (run d es).
Proof.
  induction es as [|e es IH]; intros d lo Hd Hclock; [by exists lo|].
  change (run d (e :: es)) with (run (step d e) es).
  destruct e as [f [sid now|sid r txt now|sid]].
  - destruct Hclock as [Hnow Hclock]. apply (IH _ now); [|done].
    apply (stamped_by_mono lo now) in Hd; [|done].
    destruct (step_cases d (f, CreateSession sid now)) as [->|[_ ->]]; [done|].
    by apply created_stamped.
  - destruct Hclock as [Hnow Hclock]. apply (IH _ now); [|done].
    apply (stamped_by_mono lo now) in Hd; [|done].
    destruct (step_cases d (f, AddMessage sid r txt now)) as [->| ->]; [done|].
    by apply added_stamped.
  - apply (IH _ lo); [|done].
    destruct (step_cases d (f, DeleteSession sid)) as [->| ->]; [done|].
    by apply deleted_stamped.
Qed.

(** C8, as the code has it. [create_session] writes the one clock reading
    into both columns, and [add_message] overwrites [updated_at] with the
    clock reading of the call. So in every file reached by a history of
    calls whose clock readings never decrease, whatever faults the calls
    meet, every session has [created_at <= updated_at]. *)
Theorem updated_at_not_before_created_at es :
  nondecreasing (clock_readings es) ->
  (∀ s, s ∈ sessions (run init_db es) -> created_at s <= updated_at s)
  ∧ (∀ f now d sid row d',
       create_session f now d sid = (Return row, d') ->
       created_at row = now ∧ updated_at row = now ∧ row ∈ sessions d').
Proof.
  intros Hclock. split.
  - assert (∃ hi, stamped_by hi (run init_db es)) as [hi Hhi].
    { destruct (clock_readings es) as [|t l] eqn:Hes.
      - apply (run_stamped es init_db 0); [constructor|by rewrite Hes].
      - apply (run_stamped es init_db t); [constructor|].
        rewrite Hes. by apply nondecreasing_chain. }
    intros s Hs. unfold stamped_by in Hhi. rewrite Forall_forall in Hhi.
    by destruct (Hhi s Hs).
  - intros f now d sid row d' Hret.
    destruct (has_session d sid) eqn:Hs.
    { destruct (create_session_duplicate f now d sid Hs) as [e He]. congruence. }
    destruct (create_session_cases f now d sid) as [H|[e H]]; [|congruence].
    rewrite H, (create_session_new _ _ _ Hs) in Hret.
    injection Hret as <- <-. do 2 (split; [done|]).
    cbn. apply elem_of_app. right. apply list_elem_of_here.
Qed.

Lemma updated_at_not_before_created_at_witness :
  nondecreasing
    (clock_readings [(None, CreateSession "s1" 1);
                     (Some 1%nat, AddMessage "s1" "user" "hi" 2);
                     (None, AddMessage "s1" "user" "hi" 2);
                     (None, DeleteSession "s0");
                     (None, AddMessage "s1" "assistant" "yo" 4)])
  ∧ Forall (λ s, created_at s <= updated_at s)
      (sessions (run init_db [(None, CreateSession "s1" 1);
                              (Some 1%nat, AddMessage "s1" "user" "hi" 2);
                              (None, AddMessage "s1" "user" "hi" 2);
                              (None, DeleteSession "s0");
                              (None, AddMessage "s1" "assistant" "yo" 4)])).
Proof.
  assert (H : nondecreasing
    (clock_readings [(None, CreateSession "s1" 1);
                     (Some 1%nat, AddMessage "s1" "user" "hi" 2);
                     (None, AddMessage "s1" "user" "hi" 2);
                     (None, DeleteSession "s0");
                     (None, AddMessage "s1" "assistant" "yo" 4)])).
  { vm_compute. intuition discriminate. }
  split; [exact H|]. apply Forall_forall.
  exact (proj1 (updated_at_not_before_created_at _ H)).
Defined.

(** C8 as stated does not hold: a session created at 10 receives a
    message when the clock reads 5, and [updated_at] becomes 5. *)
Lemma updated_at_before_created_at :
  History.reachable
    (run init_db [(None, CreateSession "s1" 10);
                  (None, AddMessage "s1" "user" "hi" 5)])
  ∧ SessionRow "s1" 10 5
    ∈ sessions (run init_db [(None, CreateSession "s1" 10);
                             (None, AddMessage "s1" "user" "hi" 5)])
  ∧ ¬ (created_at (SessionRow "s1" 10 5) <= updated_at (SessionRow "s1" 10 5)).
Proof.
  split; [by eexists|]. split; [by_decide|]. cbn. lia.
Qed.

(** ** The endpoints of [app.py] *)

(** C4. Each of the four endpoints leaves the SQLite store as it found
    it and never looks at it: run on the same [chat_sessions] with any
    other store, it gives the same response and the same [chat_sessions].
    Hence no request changes the store. *)
Theorem endpoints_frame_store :
  (∀ uuid4 now, App.store_frame (App.start_chat uuid4 now))
  ∧ (∀ t1 t2 t3 sid m,
       App.store_frame (λ w, App.chat_with_space t1 t2 t3 w sid m))
  ∧ (∀ sid, App.store_frame (λ w, App.get_chat_history w sid))
  ∧ (∀ sid, App.store_frame (λ w, App.delete_session w sid))
  ∧ (∀ w r, App.store (App.serve w r) = App.store w).
Proof.
  repeat split; try done;
    unfold App.chat_with_space, App.get_chat_history, App.delete_session;
    cbn [App.chat_sessions]; try by destruct (App.chat_sessions w !! sid).
  intros w [u now|sid m t1 t2 t3|sid|sid]; cbn; [done|..];
    unfold App.chat_with_space, App.get_chat_history, App.delete_session;
    by destruct (App.chat_sessions w !! sid).
Qed.

(** ** [start_chat] *)

(** C7, as the code has it. [start_chat] never fails and never tries a
    second identifier: it answers with the identifier [uuid4] gave it and
    puts a session without messages, created now, under that identifier in
    [chat_sessions]. The other entries stay, and so does the SQLite store:
    [create_session] is not called, the store knows the new identifier
    exactly if it did before. *)
Theorem start_chat_in_memory uuid4 now w :
  (∃ text, fst (App.start_chat uuid4 now w)
           = App.OK (App.mkStartChatResponse uuid4 text now))
  ∧ App.chat_sessions (snd (App.start_chat uuid4 now w)) !! uuid4
    = Some (App.Session now [])
  ∧ (∀ k, k ≠ uuid4 ->
       App.chat_sessions (snd (App.start_chat uuid4 now w)) !! k
       = App.chat_sessions w !! k)
  ∧ App.store (snd (App.start_chat uuid4 now w)) = App.store w
  ∧ session_exists None (App.store (snd (App.start_chat uuid4 now w))) uuid4
    = session_exists None (App.store w) uuid4.
Proof.
  split; [by eexists|]. cbn. split; [apply lookup_insert_eq|].
  split; [|done]. intros k Hk. by apply lookup_insert_ne.
Qed.

Lemma start_chat_in_memory_witness :
  App.chat_sessions
    (snd (App.start_chat "u2" 9
            (App.World {[ "u1" := App.Session 1 [] ]} init_db))) !! "u1"
  = Some (App.Session 1 []).
Proof.
  destruct (start_chat_in_memory "u2" 9
              (App.World {[ "u1" := App.Session 1 [] ]} init_db))
    as (_ & _ & Hother & _).
  rewrite (Hother "u1") by discriminate. apply lookup_singleton_eq.
Defined.

(** C7 as stated does not hold: when [uuid4] gives an identifier that is
    already in use, [start_chat] answers with that very identifier, the
    session that had it starts over without its messages, and the store
    has no session of that name, before or after. *)
Lemma start_chat_no_retry_no_create_session :
  fst (App.start_chat "u1" 9
         (App.World {[ "u1" := App.Session 1
                         [App.ChatEntry "user" "hi" 2;
                          App.ChatEntry "assistant" "Echo: hi" 3] ]} init_db))
  = App.OK (App.mkStartChatResponse "u1"
      "Chat session created successfully. Use this session_id to send messages."
      9)
  ∧ App.chat_sessions
      (snd (App.start_chat "u1" 9
              (App.World {[ "u1" := App.Session 1
                              [App.ChatEntry "user" "hi" 2;
                               App.ChatEntry "assistant" "Echo: hi" 3] ]}
                 init_db))) !! "u1"
    = Some (App.Session 9 [])
  ∧ fst (session_exists None
           (App.store
              (snd (App.start_chat "u1" 9
                      (App.World {[ "u1" := App.Session 1
                                      [App.ChatEntry "user" "hi" 2;
                                       App.ChatEntry "assistant" "Echo: hi" 3] ]}
                         init_db)))) "u1")
    = Return false.
Proof.
  split; [reflexivity|]. split; [apply lookup_insert_eq|reflexivity].
Qed.

(** ** [chat_with_space] *)

Lemma chat_with_space_found t1 t2 t3 w sid s m :
  App.chat_sessions w !! sid = Some s ->
  App.chat_with_space t1 t2 t3 w sid m
  = (App.OK (App.mkChatResponse sid (App.message m)
               ("Echo: " +:+ App.message m) t3),
     App.World
       (<[sid := App.Session (App.s_created_at s)
                   (App.s_messages s
                    ++ [App.ChatEntry "user" (App.message m) t1;
                        App.ChatEntry "assistant"
                          ("Echo: " +:+ App.message m) t2])]>
          (App.chat_sessions w))
       (App.store w)).
Proof.
  intros H. unfold App.chat_with_space. rewrite H.
  by rewrite <- app_assoc.
Qed.

(** X23. The reply is computed in place as ["Echo: "] followed by the
    user's text, which cannot fail: on every session that exists
    [chat_with_space] raises nothing and returns its response, with that
    reply in it, and the session's list has grown by the user entry and
    then the assistant entry. The SQLite store is not written. *)
Theorem chat_with_space_always_replies t1 t2 t3 w sid s m :
  App.chat_sessions w !! sid = Some s ->
  fst (App.chat_with_space t1 t2 t3 w sid m)
  = App.OK (App.mkChatResponse sid (App.message m)
              ("Echo: " +:+ App.message m) t3)
  ∧ (∀ code detail,
       fst (App.chat_with_space t1 t2 t3 w sid m)
       ≠ App.HTTPException code detail)
  ∧ App.s_messages
      <$> App.chat_sessions (snd (App.chat_with_space t1 t2 t3 w sid m)) !! sid
    = Some (App.s_messages s
            ++ [App.ChatEntry "user" (App.message m) t1;
                App.ChatEntry "assistant" ("Echo: " +:+ App.message m) t2])
  ∧ App.store (snd (App.chat_with_space t1 t2 t3 w sid m)) = App.store w.
Proof.
  intros H. rewrite (chat_with_space_found _ _ _ _ _ _ _ H). cbn.
  split; [done|]. split; [done|]. split; [|done].
  by rewrite lookup_insert_eq.
Qed.

Lemma chat_with_space_always_replies_witness :
  fst (App.chat_with_space 2 3 4
         (App.World {[ "u1" := App.Session 1 [] ]} init_db) "u1"
         (App.mkChatMessage "hi"))
  = App.OK (App.mkChatResponse "u1" "hi" "Echo: hi" 4).
Proof.
  exact (proj1 (chat_with_space_always_replies 2 3 4
                  (App.World {[ "u1" := App.Session 1 [] ]} init_db) "u1"
                  (App.Session 1 []) (App.mkChatMessage "hi")
                  (lookup_singleton_eq "u1" (App.Session 1 [])))).
Defined.

(** The failure that C6 speaks of has no place in the endpoint: no call
    on a session that exists raises anything, so the condition of C6 is
    never met; and what a call keeps of the user's message is in
    [chat_sessions] only, not in the store. *)
Lemma chat_with_space_no_reply_failure :
  (¬ ∃ t1 t2 t3 w sid m code detail,
       is_Some (App.chat_sessions w !! sid)
       ∧ fst (App.chat_with_space t1 t2 t3 w sid m)
         = App.HTTPException code detail)
  ∧ fst (get_messages None
           (App.store
              (snd (App.chat_with_space 2 3 4
                      (App.World {[ "u1" := App.Session 1 [] ]}
                                 (created 1 init_db "u1"))
                      "u1" (App.mkChatMessage "hi")))) "u1")
    = Return [].
Proof.
  split.
  - intros (t1 & t2 & t3 & w & sid & m & code & detail & [s Hs] & Hfail).
    by rewrite (chat_with_space_found _ _ _ _ _ _ _ Hs) in Hfail.
  - reflexivity.
Qed.

(** ** The shape of every in-memory history *)

Lemma list_pair_ind {A} (P : list A -> Prop) :
  P [] -> (∀ x, P [x]) -> (∀ x y l, P l -> P (x :: y :: l)) -> ∀ l, P l.
Proof.
  intros H0 H1 H2 l. cut (P l ∧ ∀ x, P (x :: l)); [tauto|].
  induction l as [|y l [IH IH']]; split; auto.
Qed.

Lemma echo_dialogue_snoc l u a :
  App.echo_dialogue l ->
  App.ce_role u = "user" -> App.ce_role a = "assistant" ->
  App.ce_content a = "Echo: " +:+ App.ce_content u ->
  App.echo_dialogue (l ++ [u; a]).
Proof.
  intros Hl Hu Ha Hc. revert Hl.
  induction l as [| x | x y l IH] using list_pair_ind; cbn; [done..|].
  intros (? & ? & ? & ?). auto.
Qed.

Lemma echo_dialogue_even l : App.echo_dialogue l -> Nat.Even (length l).
Proof.
  induction l as [| x | x y l IH] using list_pair_ind; cbn.
  - intros _. by exists 0%nat.
  - done.
  - intros (_ & _ & _ & [n Hn]%IH). exists (S n). lia.
Qed.

Lemma echo_dialogue_roles l :
  App.echo_dialogue l ->
  ∀ i e, l !! i = Some e ->
         App.ce_role e = if Nat.even i then "user" else "assistant".
Proof.
  induction l as [| x | x y l IH] using list_pair_ind; cbn; [done..|].
  intros (Hx & Hy & _ & Hl) [|[|i]] e; cbn.
  - by intros [= <-].
  - by intros [= <-].
  - by apply IH.
Qed.

Lemma echo_dialogue_contents l :
  App.echo_dialogue l ->
  ∀ i u a, l !! (2 * i)%nat = Some u -> l !! (2 * i + 1)%nat = Some a ->
           App.ce_content a = "Echo: " +:+ App.ce_content u.
Proof.
  induction l as [| x | x y l IH] using list_pair_ind; cbn [App.echo_dialogue];
    [done..|].
  intros (_ & _ & Hc & Hl) [|i] u a.
  - cbn. by intros [= <-] [= <-].
  - replace (2 * S i)%nat with (S (S (2 * i))) by lia.
    replace (S (S (2 * i)) + 1)%nat with (S (S (2 * i + 1))) by lia.
    cbn [lookup list_lookup]. by apply IH.
Qed.

Lemma serve_echo_dialogue w r :
  (∀ sid s, App.chat_sessions w !! sid = Some s ->
            App.echo_dialogue (App.s_messages s)) ->
  ∀ sid s, App.chat_sessions (App.serve w r) !! sid = Some s ->
           App.echo_dialogue (App.s_messages s).
Proof.
  intros Hw.
  destruct r as [u now|sid' m t1 t2 t3|sid'|sid']; cbn; intros sid s.
  - destruct (decide (u = sid)) as [->|Hne].
    + rewrite lookup_insert_eq. by intros [= <-].
    + rewrite lookup_insert_ne by done. apply Hw.
  - unfold App.chat_with_space.
    destruct (App.chat_sessions w !! sid') as [s'|] eqn:Hs'; cbn; [|apply Hw].
    destruct (decide (sid' = sid)) as [->|Hne].
    + rewrite lookup_insert_eq. intros [= <-]. cbn.
      rewrite <- app_assoc. apply echo_dialogue_snoc; [by eapply Hw|done..].
    + rewrite lookup_insert_ne by done. apply Hw.
  - unfold App.get_chat_history.
    destruct (App.chat_sessions w !! sid'); cbn; apply Hw.
  - unfold App.delete_session.
    destruct (App.chat_sessions w !! sid'); cbn; [|apply Hw].
    destruct (decide (sid' = sid)) as [->|Hne].
    + by rewrite lookup_delete_eq.
    + rewrite lookup_delete_ne by done. apply Hw.
Qed.

Lemma in_turn_echo_dialogue w sid s :
  App.reachable_in_turn w -> App.chat_sessions w !! sid = Some s ->
  App.echo_dialogue (App.s_messages s).
Proof.
  intros (d & rs & ->). revert sid s.
  induction rs as [|r rs IH] using rev_ind; intros sid s.
  - cbn. by rewrite lookup_empty.
  - rewrite foldl_snoc. by apply serve_echo_dialogue.
Qed.

(** C9, as the code has it. In every state reached by requests to the
    four endpoints that are served one at a time, the message list of
    every session has even length, has role "user" at the even positions
    and "assistant" at the odd ones, and each assistant entry is "Echo: "
    followed by the content of the user entry before it; and a
    [chat_with_space] call on the session, run without interruption,
    appends exactly that pair of entries, user first. *)
Theorem chat_sessions_alternate w sid s :
  App.reachable_in_turn w -> App.chat_sessions w !! sid = Some s ->
  Nat.Even (length (App.s_messages s))
  ∧ (∀ i e, App.s_messages s !! i = Some e ->
            App.ce_role e = if Nat.even i then "user" else "assistant")
  ∧ (∀ i u a, App.s_messages s !! (2 * i)%nat = Some u ->
              App.s_messages s !! (2 * i + 1)%nat = Some a ->
              App.ce_content a = "Echo: " +:+ App.ce_content u)
  ∧ (∀ t1 t2 t3 m,
       App.s_messages
         <$> App.chat_sessions
               (App.serve w (App.POST_chat sid m t1 t2 t3)) !! sid
       = Some (App.s_messages s
               ++ [App.ChatEntry "user" (App.message m) t1;
                   App.ChatEntry "assistant" ("Echo: " +:+ App.message m) t2])).
Proof.
  intros Hw Hs. pose proof (in_turn_echo_dialogue w sid s Hw Hs) as Hd.
  split; [by apply echo_dialogue_even|].
  split; [by apply echo_dialogue_roles|].
  split; [by apply echo_dialogue_contents|].
  intros t1 t2 t3 m. cbn [App.serve].
  rewrite (chat_with_space_found _ _ _ _ _ _ _ Hs). cbn.
  by rewrite lookup_insert_eq.
Qed.

Lemma chat_sessions_alternate_witness :
  App.chat_sessions
    (foldl App.serve (App.World ∅ init_db)
       [App.POST_start_chat "u1" 1;
        App.POST_chat "u1" (App.mkChatMessage "hi") 2 3 4]) !! "u1"
  = Some (App.Session 1 [App.ChatEntry "user" "hi" 2;
                         App.ChatEntry "assistant" "Echo: hi" 3])
  ∧ Nat.Even (length [App.ChatEntry "user" "hi" 2;
                      App.ChatEntry "assistant" "Echo: hi" 3])
  ∧ App.ce_role (App.ChatEntry "assistant" "Echo: hi" 3) = "assistant".
Proof.
  assert (Hs : App.chat_sessions
    (foldl App.serve (App.World ∅ init_db)
       [App.POST_start_chat "u1" 1;
        App.POST_chat "u1" (App.mkChatMessage "hi") 2 3 4]) !! "u1"
    = Some (App.Session 1 [App.ChatEntry "user" "hi" 2;
                           App.ChatEntry "assistant" "Echo: hi" 3])).
  { cbn [foldl App.serve]. unfold App.start_chat. cbn [snd].
    rewrite (chat_with_space_found 2 3 4 _ "u1" (App.Session 1 []))
      by apply lookup_insert_eq.
    cbn. by rewrite lookup_insert_eq. }
  split; [exact Hs|].
  destruct (chat_sessions_alternate _ "u1" _ (ex_intro _ init_db (ex_intro _ _ eq_refl)) Hs)
    as (Heven & Hroles & _).
  split; [exact Heven|]. exact (Hroles 1%nat _ eq_refl).
Defined.

(** ** Handlers that interleave *)

(** A call that no other thread interrupts does what the endpoint taken
    as a whole does, as long as no other identifier is bound to the same
    dict (every [start_chat] makes a new one). *)
Lemma chat_uninterrupted_whole t1 t2 t3 μ sid m r s :
  Threads.bound μ !! sid = Some r ->
  Threads.dicts μ !! r = Some s ->
  (∀ k, Threads.bound μ !! k = Some r -> k = sid) ->
  ∃ resp μ',
    Threads.chat_uninterrupted t1 t2 t3 μ sid m
    = (Threads.ChatCall sid m (Threads.Returned resp), μ')
    ∧ (resp, Threads.view μ') = App.chat_with_space t1 t2 t3 (Threads.view μ) sid m.
Proof.
  intros Hb Hd Hinj.
  assert (Hv : App.chat_sessions (Threads.view μ) !! sid = Some s).
  { cbn. by rewrite lookup_omap, Hb. }
  rewrite (chat_with_space_found _ _ _ _ _ _ _ Hv).
  unfold Threads.chat_uninterrupted, Threads.chat_step. cbn. rewrite Hb. cbn.
  eexists _, _. split; [reflexivity|]. f_equal.
  unfold Threads.view. cbn. f_equal. apply map_eq. intros k.
  rewrite lookup_omap. destruct (decide (k = sid)) as [->|Hne].
  - rewrite lookup_insert_eq, Hb. cbn.
    rewrite !list_lookup_alter_eq. unfold Threads.ref in *.
    rewrite Hd. cbn. by rewrite <- app_assoc.
  - rewrite lookup_insert_ne by done. rewrite lookup_omap.
    destruct (Threads.bound μ !! k) as [r'|] eqn:Hk; [cbn|done].
    assert (r ≠ r') by (intros ->; by apply Hne, Hinj).
    by rewrite !list_lookup_alter_ne.
Qed.

(** C9 as stated does not hold. Two chat requests on one session, each
    running its stretches in turn with the other: after the first user
    entry the list has one element, and at the end it reads user, user,
    assistant, assistant. *)
Lemma chat_sessions_interleaved :
  Threads.reachable
    (foldl Threads.step (Threads.Config (Threads.Memory ∅ [] init_db) [])
       [Threads.StartChat "u1" 1;
        Threads.Accept "u1" (App.mkChatMessage "a");
        Threads.Accept "u1" (App.mkChatMessage "b");
        Threads.Advance 0 2; Threads.Advance 1 2;
        Threads.Advance 0 3; Threads.Advance 1 4;
        Threads.Advance 0 5; Threads.Advance 1 6])
  ∧ App.chat_sessions
      (Threads.view
         (Threads.mem
            (foldl Threads.step
               (Threads.Config (Threads.Memory ∅ [] init_db) [])
               [Threads.StartChat "u1" 1;
                Threads.Accept "u1" (App.mkChatMessage "a");
                Threads.Accept "u1" (App.mkChatMessage "b");
                Threads.Advance 0 2; Threads.Advance 1 2;
                Threads.Advance 0 3; Threads.Advance 1 4;
                Threads.Advance 0 5; Threads.Advance 1 6]))) !! "u1"
    = Some (App.Session 1
              [App.ChatEntry "user" "a" 3; App.ChatEntry "user" "b" 4;
               App.ChatEntry "assistant" "Echo: a" 5;
               App.ChatEntry "assistant" "Echo: b" 6])
  ∧ App.ce_role (App.ChatEntry "user" "b" 4)
    ≠ (if Nat.even 1 then "user" else "assistant")
  ∧ App.chat_sessions
      (Threads.view
         (Threads.mem
            (foldl Threads.step
               (Threads.Config (Threads.Memory ∅ [] init_db) [])
               [Threads.StartChat "u1" 1;
                Threads.Accept "u1" (App.mkChatMessage "a");
                Threads.Advance 0 2; Threads.Advance 0 3]))) !! "u1"
    = Some (App.Session 1 [App.ChatEntry "user" "a" 3])
  ∧ ¬ Nat.Even (length [App.ChatEntry "user" "a" 3]).
Proof.
  split; [by eexists _, _|].
  split; [by vm_compute|]. split; [discriminate|].
  split; [by vm_compute|]. intros [n Hn]. cbn in Hn. lia.
Qed.

(** * Further properties of [ChatDatabase] *)

(** ** What the read methods return *)

Lemma session_exists_returns d sid :
  session_exists None d sid = (Return (has_session d sid), d).
Proof.
  unfold session_exists, try_finally, _get_connection, connect, fetch. cbn.
  by rewrite has_session_select_one.
Qed.

Lemma has_session_true d sid :
  has_session d sid = true ↔ sid ∈ session_id <$> sessions d.
Proof. unfold has_session. apply bool_decide_eq_true. Qed.

Lemma filter_absent_session sid (l : list session_row) :
  sid ∉ session_id <$> l -> filter (λ s, session_id s = sid) l = [].
Proof.
  intros H. apply filter_keeps_none, Forall_forall. intros s Hs <-.
  by apply H, list_elem_of_fmap_2.
Qed.

Lemma filter_absent_message sid (l : list message_row) :
  filter (λ m, msg_session_id m = sid) (filter (λ m, msg_session_id m ≠ sid) l)
  = [].
Proof.
  apply filter_keeps_none, Forall_forall. by intros m [? _]%list_elem_of_filter.
Qed.

Lemma filter_other_message sid sid' (l : list message_row) :
  sid' ≠ sid ->
  filter (λ m, msg_session_id m = sid') (filter (λ m, msg_session_id m ≠ sid) l)
  = filter (λ m, msg_session_id m = sid') l.
Proof.
  intros Hne. induction l as [|m l IH]; [done|].
  rewrite (filter_cons (λ m, msg_session_id m ≠ sid)).
  destruct (decide (msg_session_id m ≠ sid)) as [Hm|Hm].
  - rewrite !filter_cons. by rewrite IH.
  - rewrite filter_cons_False; [done|]. intros Heq. apply Hm. congruence.
Qed.

Lemma filter_other_session sid sid' (l : list session_row) :
  sid' ≠ sid ->
  filter (λ s, session_id s = sid') (filter (λ s, session_id s ≠ sid) l)
  = filter (λ s, session_id s = sid') l.
Proof.
  intros Hne. induction l as [|s l IH]; [done|].
  rewrite (filter_cons (λ s, session_id s ≠ sid)).
  destruct (decide (session_id s ≠ sid)) as [Hs|Hs].
  - rewrite !filter_cons. by rewrite IH.
  - rewrite filter_cons_False; [done|]. intros Heq. apply Hs. congruence.
Qed.

Lemma filter_updated_other now sid sid' (l : list session_row) :
  sid' ≠ sid ->
  filter (λ s, session_id s = sid') (set_updated_at now sid <$> l)
  = filter (λ s, session_id s = sid') l.
Proof.
  intros Hne. induction l as [|s l IH]; [done|].
  rewrite fmap_cons, !filter_cons, set_updated_at_session_id, IH.
  destruct (decide (session_id s = sid')) as [Hs|Hs]; [|done].
  by rewrite set_updated_at_miss by congruence.
Qed.

(** A read, whatever the medium does, returns what it returns on a
    working medium or raises; the file is as before. *)
Lemma fetch_cases {A} (q : database -> A) f d :
  try_finally (fetch q) (_get_connection f d) = (Return (q d), d)
  ∨ (f = Some 0%nat
     ∧ try_finally (fetch q) (_get_connection f d) = (Raise OperationalError, d)).
Proof.
  unfold try_finally, fetch, _get_connection, connect, medium_fails. cbn.
  destruct f as [[|n]|]; cbn; auto.
Qed.

(** ** Creating a session *)

(** X1. A session created under an unused identifier is found at once:
    [create_session] returns the record with both timestamps equal to the
    clock reading, [session_exists] then returns [True], [get_session]
    returns that record, and the session has no messages. *)
Theorem create_session_then_lookup now d sid :
  sid ∉ session_id <$> sessions d ->
  filter (λ m, msg_session_id m = sid) (messages d) = [] ->
  ∃ d', create_session None now d sid = (Return (SessionRow sid now now), d')
        ∧ session_exists None d' sid = (Return true, d')
        ∧ get_session None d' sid = (Return (Some (SessionRow sid now now)), d')
        ∧ get_messages None d' sid = (Return [], d').
Proof.
  intros Hnew Hnone. exists (created now d sid).
  split; [by apply create_session_new, has_session_false|].
  split.
  { rewrite session_exists_returns. do 2 f_equal. apply has_session_true.
    cbn. rewrite fmap_app. apply elem_of_app. right. apply list_elem_of_here. }
  split.
  - unfold get_session, try_finally, _get_connection, connect, fetch. cbn.
    unfold select_session, created. cbn [sessions].
    rewrite filter_app, (filter_absent_session _ _ Hnew).
    by rewrite filter_cons_True.
  - unfold get_messages, try_finally, _get_connection, connect, fetch. cbn.
    unfold select_messages, created. cbn [messages]. by rewrite Hnone.
Qed.

Lemma create_session_then_lookup_witness :
  ∃ d', create_session None 5 (created 1 init_db "s1") "s2"
        = (Return (SessionRow "s2" 5 5), d')
        ∧ session_exists None d' "s2" = (Return true, d')
        ∧ get_session None d' "s2" = (Return (Some (SessionRow "s2" 5 5)), d')
        ∧ get_messages None d' "s2" = (Return [], d').
Proof.
  apply (create_session_then_lookup 5 (created 1 init_db "s1") "s2");
    [by_decide|reflexivity].
Defined.

(** X2. An identifier that is already in [sessions] is refused:
    [create_session] raises [IntegrityError] (the PRIMARY KEY), and with
    or without a medium fault the file, and so the existing session's
    timestamps, stay as they were. *)
Theorem create_session_twice now d sid :
  sid ∈ session_id <$> sessions d ->
  create_session None now d sid = (Raise IntegrityError, d)
  ∧ ∀ f, ∃ e, create_session f now d sid = (Raise e, d).
Proof.
  intros Hin%has_session_true. split.
  - run_method. by rewrite Hin.
  - intros f. by apply create_session_duplicate.
Qed.

Lemma create_session_twice_witness :
  create_session None 9 (created 1 init_db "s1") "s1"
  = (Raise IntegrityError, created 1 init_db "s1").
Proof.
  apply (create_session_twice 9 (created 1 init_db "s1") "s1"). by_decide.
Defined.

(** X3. [create_session] is all or nothing: whatever fault the medium
    has, the call either raises and the file is unchanged, or returns the
    record and the file has gained exactly that one [sessions] row, with
    [messages] and the AUTOINCREMENT counter untouched. *)
Theorem create_session_atomic f now d sid :
  (∃ e, create_session f now d sid = (Raise e, d))
  ∨ ((sid ∉ session_id <$> sessions d)
     ∧ create_session f now d sid
       = (Return (SessionRow sid now now),
          Database (sessions d ++ [SessionRow sid now now]) (messages d)
                   (sqlite_sequence d))).
Proof.
  destruct (has_session d sid) eqn:Hs.
  { left. by apply create_session_duplicate. }
  destruct (create_session_cases f now d sid) as [->|?]; [right|by left].
  split; [by apply has_session_false|]. by apply create_session_new.
Qed.

(** ** Looking a session up *)

(** X4. The two lookups agree and never fail on a missing identifier:
    [session_exists] returns whether a row has the identifier;
    [get_session] returns [None] exactly when none has, and otherwise a
    row of [sessions] with that identifier. *)
Theorem session_lookups_agree d sid :
  session_exists None d sid
  = (Return (bool_decide (sid ∈ session_id <$> sessions d)), d)
  ∧ ∃ o, get_session None d sid = (Return o, d)
         ∧ (o = None ↔ sid ∉ session_id <$> sessions d)
         ∧ (∀ s, o = Some s -> session_id s = sid ∧ s ∈ sessions d).
Proof.
  split; [apply session_exists_returns|].
  exists (select_session sid d). split; [done|]. unfold select_session.
  split; [split|].
  - intros Hnone Hin. apply filter_session_length in Hin.
    destruct (filter _ (sessions d)); [cbn in Hin; lia|done].
  - intros Hno. by rewrite filter_absent_session.
  - intros s Hs. apply head_Some_elem_of in Hs.
    by apply list_elem_of_filter in Hs.
Qed.

Lemma session_lookups_agree_witness :
  get_session None (created 1 init_db "s1") "nobody"
  = (Return None, created 1 init_db "s1").
Proof.
  destruct (session_lookups_agree (created 1 init_db "s1") "nobody")
    as (_ & o & -> & [_ Ho] & _).
  rewrite Ho; [reflexivity|]. by_decide.
Defined.

(** X5. The four read methods never write: with or without a fault of
    the medium, the file after [session_exists], [get_session],
    [get_messages] and [list_sessions] is the file before, and the only
    thing they raise is the medium's [OperationalError]. *)
Theorem reads_leave_file f d sid :
  snd (session_exists f d sid) = d
  ∧ snd (get_session f d sid) = d
  ∧ snd (get_messages f d sid) = d
  ∧ snd (list_sessions f d) = d
  ∧ (∀ e, fst (session_exists f d sid) = Raise e
          ∨ fst (get_session f d sid) = Raise e
          ∨ fst (get_messages f d sid) = Raise e
          ∨ fst (list_sessions f d) = Raise e ->
          e = OperationalError ∧ f = Some 0%nat).
Proof.
  unfold session_exists, get_session, get_messages, list_sessions.
  destruct (fetch_cases (select_one sid) f d) as [H1|[Hf H1]];
  destruct (fetch_cases (select_session sid) f d) as [H2|[Hf' H2]];
  destruct (fetch_cases (select_messages sid) f d) as [H3|[Hf'' H3]];
  destruct (fetch_cases select_summaries f d) as [H4|[Hf''' H4]];
    rewrite H1, H2, H3, H4; cbn; repeat (split; [done|]);
    intros e [He|[He|[He|He]]]; try discriminate He; by injection He as <-.
Qed.

Lemma reads_leave_file_witness :
  fst (get_messages (Some 0%nat) (created 1 init_db "s1") "s1")
  = Raise OperationalError
  ∧ snd (get_messages (Some 0%nat) (created 1 init_db "s1") "s1")
    = created 1 init_db "s1".
Proof.
  destruct (reads_leave_file (Some 0%nat) (created 1 init_db "s1") "s1")
    as (_ & _ & Hsame & _ & Hexn).
  split; [|exact Hsame].
  destruct (fst (get_messages (Some 0%nat) (created 1 init_db "s1") "s1"))
    as [ms|e] eqn:Hr; [discriminate Hr|].
  f_equal. apply (Hexn e). auto.
Defined.

(** ** Deleting a session *)

(** X6. [delete_session] is all or nothing: whatever fault the medium
    has, the call either raises and the file is unchanged, or returns and
    both the session row and every message row of that identifier are
    gone. Never are the messages removed while the session stays. *)
Theorem delete_session_atomic f d sid :
  (∃ e, delete_session f d sid = (Raise e, d))
  ∨ (delete_session f d sid
     = (Return (bool_decide (sid ∈ session_id <$> sessions d)),
        Database (filter (λ s, session_id s ≠ sid) (sessions d))
                 (filter (λ m, msg_session_id m ≠ sid) (messages d))
                 (sqlite_sequence d))).
Proof.
  destruct (delete_session_cases f d sid) as [->|?]; [right|by left].
  rewrite delete_session_commits. do 2 f_equal.
  apply bool_decide_ext, filter_session_length.
Qed.

(** X7. After a committed [delete_session] the identifier is free again
    and nothing of the session is left: [session_exists] returns [False],
    [get_session] returns [None], [get_messages] returns the empty list,
    and a session created anew under the identifier starts without
    messages. *)
Theorem delete_session_then_lookup now d sid :
  session_exists None (deleted d sid) sid = (Return false, deleted d sid)
  ∧ get_session None (deleted d sid) sid = (Return None, deleted d sid)
  ∧ get_messages None (deleted d sid) sid = (Return [], deleted d sid)
  ∧ fst (create_session None now (deleted d sid) sid)
    = Return (SessionRow sid now now)
  ∧ fst (get_messages None (snd (create_session None now (deleted d sid) sid))
           sid)
    = Return []
  ∧ snd (delete_session None d sid) = deleted d sid.
Proof.
  assert (Hgone : sid ∉ session_id <$> sessions (deleted d sid)).
  { cbn. rewrite session_ids_filter. by intros [? _]%list_elem_of_filter. }
  assert (Hmsgs : filter (λ m, msg_session_id m = sid) (messages (deleted d sid))
                  = []) by apply filter_absent_message.
  split.
  { rewrite session_exists_returns. do 2 f_equal. by apply has_session_false. }
  split.
  { unfold get_session, try_finally, _get_connection, connect, fetch. cbn -[deleted].
    unfold select_session. by rewrite filter_absent_session. }
  split.
  { unfold get_messages, try_finally, _get_connection, connect, fetch.
    cbn -[deleted]. unfold select_messages. by rewrite Hmsgs. }
  rewrite create_session_new by (by apply has_session_false).
  split; [done|]. split; [|done].
  unfold get_messages, try_finally, _get_connection, connect, fetch.
  cbn -[deleted]. unfold select_messages. cbn [created messages snd].
  by rewrite Hmsgs.
Qed.

(** X8. [delete_session] touches one session only: for every other
    identifier, [session_exists], [get_session] and [get_messages] return
    after the deletion what they returned before. *)
Theorem delete_session_other d sid sid' :
  sid' ≠ sid ->
  fst (session_exists None (snd (delete_session None d sid)) sid')
  = fst (session_exists None d sid')
  ∧ fst (get_session None (snd (delete_session None d sid)) sid')
    = fst (get_session None d sid')
  ∧ fst (get_messages None (snd (delete_session None d sid)) sid')
    = fst (get_messages None d sid').
Proof.
  intros Hne. rewrite delete_session_commits. cbn [snd].
  rewrite !session_exists_returns. cbn [fst].
  unfold get_session, get_messages, try_finally, _get_connection, connect, fetch.
  cbn -[deleted]. unfold select_session, select_messages, deleted.
  cbn [sessions messages].
  rewrite (filter_other_session _ _ _ Hne), (filter_other_message _ _ _ Hne).
  split; [|done]. f_equal. rewrite <- !has_session_select_one.
  unfold select_one. cbn [sessions]. by rewrite (filter_other_session _ _ _ Hne).
Qed.

Lemma delete_session_other_witness :
  fst (get_messages None
         (snd (delete_session None
                 (added 3 (created 2 (created 1 init_db "s1") "s2")
                        "s2" "user" "hi") "s1")) "s2")
  = fst (get_messages None
           (added 3 (created 2 (created 1 init_db "s1") "s2") "s2" "user" "hi")
           "s2").
Proof.
  apply (delete_session_other
           (added 3 (created 2 (created 1 init_db "s1") "s2") "s2" "user" "hi")
           "s1" "s2").
  discriminate.
Defined.

(** ** Adding a message *)

(** X9. A committed [add_message] touches one session only and neither
    creates nor removes a session: every identifier exists afterwards
    exactly if it did before, and for every other identifier
    [get_session] and [get_messages] return what they returned before. *)
Theorem add_message_other now d sid r txt sid' :
  fst (session_exists None (snd (add_message None now d sid r txt)) sid')
  = fst (session_exists None d sid')
  ∧ (sid' ≠ sid ->
     fst (get_session None (snd (add_message None now d sid r txt)) sid')
     = fst (get_session None d sid')
     ∧ fst (get_messages None (snd (add_message None now d sid r txt)) sid')
       = fst (get_messages None d sid')).
Proof.
  rewrite add_message_commits. cbn [snd]. split.
  { rewrite !session_exists_returns. cbn [fst]. f_equal.
    unfold has_session, added. cbn [sessions]. by rewrite session_ids_updated. }
  intros Hne.
  unfold get_session, get_messages, try_finally, _get_connection, connect, fetch.
  cbn -[added]. unfold select_session, select_messages, added.
  cbn [sessions messages].
  rewrite (filter_updated_other _ _ _ _ Hne). split; [done|].
  rewrite filter_app, (filter_cons _ (MessageRow _ _ _ _ _)), filter_nil.
  cbn [msg_session_id]. rewrite decide_False by congruence.
  by rewrite app_nil_r.
Qed.

Lemma add_message_other_witness :
  fst (get_messages None
         (snd (add_message None 7 (created 2 (created 1 init_db "s1") "s2")
                 "s1" "user" "hi")) "s2")
  = fst (get_messages None (created 2 (created 1 init_db "s1") "s2") "s2").
Proof.
  apply (add_message_other 7 (created 2 (created 1 init_db "s1") "s2")
           "s1" "user" "hi" "s2").
  discriminate.
Defined.

(** ** Reading the messages *)

Lemma nondecreasing_lookup l :
  nondecreasing l ->
  ∀ i j a b, (i <= j)%nat -> l !! i = Some a -> l !! j = Some b -> a <= b.
Proof.
  induction l as [|t l IH]; intros Hl i j a b Hij Hi Hj; [done|].
  assert (Hlow : Forall (λ c, t <= c) l).
  { cbn in Hl. clear -Hl. revert t Hl. induction l as [|c l IHl]; intros t Hl.
    - constructor.
    - destruct Hl as [Hc Hl]. constructor; [done|].
      eapply Forall_impl; [exact (IHl _ Hl)|]. intros; cbn in *; lia. }
  destruct i as [|i], j as [|j]; cbn in Hi, Hj.
  - injection Hi as <-. injection Hj as <-. lia.
  - injection Hi as <-. rewrite Forall_forall in Hlow.
    apply Hlow. by eapply list_elem_of_lookup_2.
  - lia.
  - apply (IH (chain_nondecreasing _ _ Hl) i j); [lia|done..].
Qed.

(** X10. On any file, [get_messages] returns one dict for each
    [messages] row of the identifier and no other, earlier timestamps
    first. An identifier without message rows gives the empty list,
    whether or not a session of that name exists. *)
Theorem get_messages_sorted d sid :
  ∃ ms, get_messages None d sid = (Return ms, d)
        ∧ ms ≡ₚ message_columns
                 <$> filter (λ m, msg_session_id m = sid) (messages d)
        ∧ (∀ i j a b, (i <= j)%nat -> ms !! i = Some a -> ms !! j = Some b ->
                      md_timestamp a <= md_timestamp b)
        ∧ (filter (λ m, msg_session_id m = sid) (messages d) = [] -> ms = []).
Proof.
  exists (select_messages sid d). split; [done|]. unfold select_messages.
  split; [by rewrite order_by_perm|]. split.
  - intros i j a b Hij Ha Hb.
    apply (nondecreasing_lookup
             (md_timestamp <$> (message_columns <$>
                order_by (λ a b, timestamp a <=? timestamp b)
                  (filter (λ m, msg_session_id m = sid) (messages d)))))
      with (i := i) (j := j); [|done|by rewrite list_lookup_fmap, Ha
                                |by rewrite list_lookup_fmap, Hb].
    rewrite <- message_timestamps. apply (order_by_nondecreasing timestamp).
  - by intros ->.
Qed.

Lemma get_messages_sorted_witness :
  get_messages None (created 1 init_db "s1") "nobody"
  = (Return [], created 1 init_db "s1").
Proof.
  destruct (get_messages_sorted (created 1 init_db "s1") "nobody")
    as (ms & -> & _ & _ & Hempty).
  by rewrite Hempty.
Defined.

(** ** Listing the sessions *)

Lemma order_by_ext {A} (le le' : A -> A -> bool) l :
  (∀ a b, le a b = le' a b) -> order_by le l = order_by le' l.
Proof.
  intros H. induction l as [|x l IH]; [done|]. cbn. rewrite IH.
  generalize (order_by le' l). intros k. induction k as [|y k IHk]; [done|].
  cbn. by rewrite H, IHk.
Qed.

Lemma remove_dups_block {A} `{EqDecision A} (k : A) (l rest : list A) :
  l ≠ [] -> Forall (λ x, x = k) l -> k ∉ rest ->
  remove_dups (l ++ rest) = k :: remove_dups rest.
Proof.
  intros Hne Hall Hk. induction Hall as [|x l -> Hall IH]; [done|].
  destruct l as [|y l].
  - cbn. by destruct (decide_rel elem_of k rest).
  - cbn [app remove_dups].
    destruct (decide_rel elem_of k (y :: (l ++ rest))) as [_|Hno].
    + by apply IH.
    + exfalso. apply Hno. apply Forall_cons in Hall as [-> _].
      apply list_elem_of_here.
Qed.

Lemma left_join_single_keys s ms :
  left_join [s] ms ≠ [] ∧
  Forall (λ k, k = session_id s)
    ((λ r : session_row * option message_row, session_id (fst r))
       <$> left_join [s] ms).
Proof.
  destruct (left_join_single s ms) as [Hall _]. split.
  - unfold left_join. cbn. rewrite app_nil_r. by destruct (filter _ ms).
  - rewrite Forall_fmap. eapply Forall_impl; [exact Hall|]. by intros r <-.
Qed.

Lemma left_join_keys ss ms :
  NoDup (session_id <$> ss) ->
  remove_dups ((λ r : session_row * option message_row, session_id (fst r))
                 <$> left_join ss ms)
  = session_id <$> ss.
Proof.
  induction ss as [|s ss IH]; [done|]. rewrite fmap_cons.
  intros [Hs Hnd]%NoDup_cons.
  rewrite left_join_cons, fmap_app.
  destruct (left_join_single_keys s ms) as [Hne Hall].
  rewrite (remove_dups_block (session_id s)); [by rewrite IH|..|done|].
  - intros Hnil. apply Hne. by apply fmap_nil_inv in Hnil.
  - intros (r & Hr & Hin%left_join_fst)%list_elem_of_fmap.
    apply Hs. rewrite Hr. by apply list_elem_of_fmap_2.
Qed.

Lemma aggregate_row g s :
  aggregate g = Some s ->
  ∃ s0 o, (s0, o) ∈ g
          ∧ sum_session_id s = session_id s0
          ∧ sum_created_at s = created_at s0
          ∧ sum_updated_at s = updated_at s0.
Proof.
  destruct g as [|[s0 o] g]; [done|]. cbn. intros [= <-].
  exists s0, o. split; [apply list_elem_of_here|done].
Qed.

Lemma aggregate_groups j (ks : list string) :
  (∀ k, k ∈ ks ->
        k ∈ (λ r : session_row * option message_row, session_id (fst r)) <$> j) ->
  sum_session_id
    <$> omap aggregate
          ((λ k, filter (λ r : session_row * option message_row,
                           session_id (fst r) = k) j) <$> ks)
  = ks.
Proof.
  induction ks as [|k ks IH]; intros Hks; [done|].
  rewrite fmap_cons. cbn [omap list_omap].
  assert (Hk : k ∈ (λ r : session_row * option message_row,
                      session_id (fst r)) <$> j)
    by apply Hks, list_elem_of_here.
  apply list_elem_of_fmap in Hk as (r & Hr & Hin).
  assert (Hg : r ∈ filter (λ r : session_row * option message_row,
                             session_id (fst r) = k) j)
    by (by apply list_elem_of_filter).
  destruct (aggregate _) as [s|] eqn:Hs.
  - rewrite fmap_cons. f_equal.
    + by destruct (aggregate_group j k _ s eq_refl Hs).
    + apply IH. intros k' Hk'. by apply Hks, list_elem_of_further.
  - destruct (filter _ j) as [|[s0 o] g]; [by apply elem_of_nil in Hg|done].
Qed.

(** The summaries of a file whose identifiers are unique: one for each
    session, with the session's columns, later [updated_at] first. *)
Lemma select_summaries_rows d :
  NoDup (session_id <$> sessions d) ->
  sum_session_id <$> select_summaries d ≡ₚ session_id <$> sessions d
  ∧ (∀ s, s ∈ select_summaries d ->
          SessionRow (sum_session_id s) (sum_created_at s) (sum_updated_at s)
          ∈ sessions d)
  ∧ (∀ i j a b, (i <= j)%nat ->
        select_summaries d !! i = Some a -> select_summaries d !! j = Some b ->
        sum_updated_at b <= sum_updated_at a).
Proof.
  intros Hnd. unfold select_summaries. split; [|split].
  - rewrite order_by_perm. unfold group_by_session.
    rewrite left_join_keys by done.
    rewrite aggregate_groups; [done|].
    intros k Hk. rewrite <- (left_join_keys (sessions d) (messages d)) in Hk by done.
    by apply (elem_of_remove_dups _ k).
  - intros s. rewrite order_by_elem_of, list_elem_of_omap.
    intros (g & Hg & Hs). unfold group_by_session in Hg.
    apply list_elem_of_fmap in Hg as (k & -> & _).
    apply aggregate_row in Hs as (s0 & o & Hin & -> & -> & ->).
    apply list_elem_of_filter in Hin as [_ Hin%left_join_fst].
    by destruct s0.
  - intros i j a b Hij Ha Hb.
    rewrite (order_by_ext _ (λ a b, - sum_updated_at a <=? - sum_updated_at b))
      in Ha, Hb by (intros; apply eq_iff_eq_true; rewrite !Z.leb_le; lia).
    pose proof (order_by_nondecreasing (λ s, - sum_updated_at s)
      (omap aggregate (group_by_session (left_join (sessions d) (messages d)))))
      as Hsorted.
    pose proof (nondecreasing_lookup _ Hsorted i j (- sum_updated_at a)
                  (- sum_updated_at b) Hij) as H.
    rewrite !list_lookup_fmap, Ha, Hb in H. specialize (H eq_refl eq_refl). lia.
Qed.

(** X11. In every reachable file, [list_sessions] returns one summary for
    each session and no other, each with the [created_at] and [updated_at]
    of its session, and no summary comes before one with a later
    [updated_at]. *)
Theorem list_sessions_one_per_session d :
  History.reachable d ->
  ∃ l, list_sessions None d = (Return l, d)
       ∧ sum_session_id <$> l ≡ₚ session_id <$> sessions d
       ∧ (∀ s, s ∈ l ->
               SessionRow (sum_session_id s) (sum_created_at s)
                          (sum_updated_at s) ∈ sessions d)
       ∧ (∀ i j a b, (i <= j)%nat -> l !! i = Some a -> l !! j = Some b ->
                     sum_updated_at b <= sum_updated_at a).
Proof.
  intros Hd%reachable_NoDup. exists (select_summaries d). split; [done|].
  by apply select_summaries_rows.
Qed.

Lemma list_sessions_one_per_session_witness :
  ∃ l, list_sessions None
         (run init_db [(None, CreateSession "s1" 1);
                       (None, CreateSession "s2" 3);
                       (None, AddMessage "s1" "user" "hi" 4)])
       = (Return l,
          run init_db [(None, CreateSession "s1" 1);
                       (None, CreateSession "s2" 3);
                       (None, AddMessage "s1" "user" "hi" 4)])
       ∧ sum_session_id <$> l ≡ₚ ["s1"; "s2"].
Proof.
  destruct (list_sessions_one_per_session
              (run init_db [(None, CreateSession "s1" 1);
                            (None, CreateSession "s2" 3);
                            (None, AddMessage "s1" "user" "hi" 4)]))
    as (l & Hl & Hperm & _); [by eexists|].
  exists l. split; [exact Hl|exact Hperm].
Defined.

Lemma added_rows now sid (l : list session_row) s :
  s ∈ set_updated_at now sid <$> l ->
  (session_id s = sid ∧ updated_at s = now) ∨ (session_id s ≠ sid ∧ s ∈ l).
Proof.
  intros (s0 & -> & Hin)%list_elem_of_fmap.
  destruct (decide (session_id s0 = sid)) as [Hs|Hs].
  - left. by rewrite set_updated_at_session_id, set_updated_at_hit.
  - right. by rewrite set_updated_at_miss.
Qed.

(** X12. The session that was written last is listed first: after a
    committed [add_message] on an existing session, at a clock reading
    later than the [updated_at] of every other session, the first summary
    of [list_sessions] is that session's, with [updated_at] the reading. *)
Theorem list_sessions_latest_first now d sid r txt :
  History.reachable d ->
  sid ∈ session_id <$> sessions d ->
  (∀ s, s ∈ sessions d -> session_id s ≠ sid -> updated_at s < now) ->
  ∃ c n rest,
    fst (list_sessions None (snd (add_message None now d sid r txt)))
    = Return (SessionSummary sid c now n :: rest).
Proof.
  intros Hd%reachable_NoDup Hin Hlate. rewrite add_message_commits. cbn [snd].
  assert (Hnd : NoDup (session_id <$> sessions (added now d sid r txt)))
    by (cbn; by rewrite session_ids_updated).
  destruct (select_summaries_rows _ Hnd) as (Hperm & Hrows & Hsorted).
  assert (Hx : sid ∈ sum_session_id <$> select_summaries (added now d sid r txt)).
  { rewrite Hperm. cbn. by rewrite session_ids_updated. }
  apply list_elem_of_fmap in Hx as (x & Hxid & Hxin).
  apply list_elem_of_lookup in Hxin as Hxj. destruct Hxj as [j Hj].
  unfold list_sessions, try_finally, _get_connection, connect, fetch.
  cbn -[added select_summaries].
  destruct (select_summaries (added now d sid r txt)) as [|h rest] eqn:Hl;
    [by apply elem_of_nil in Hxin|].
  assert (Hxnow : sum_updated_at x = now).
  { apply Hrows, added_rows in Hxin as [[_ Hu]|[Hne _]]; [exact Hu|].
    by cbn in Hne. }
  assert (Hh : now <= sum_updated_at h).
  { rewrite <- Hxnow. apply (Hsorted 0%nat j); [lia|done|done]. }
  assert (Hhin : h ∈ h :: rest) by apply list_elem_of_here.
  apply Hrows, added_rows in Hhin as [[Hhid Hhu]|[Hne Hold]]; cbn in *.
  - exists (sum_created_at h), (message_count h), rest.
    destruct h; cbn in *; by subst.
  - specialize (Hlate _ Hold Hne). cbn in Hlate. lia.
Qed.

Lemma list_sessions_latest_first_witness :
  ∃ c n rest,
    fst (list_sessions None
           (snd (add_message None 9
                   (run init_db [(None, CreateSession "s1" 1);
                                 (None, CreateSession "s2" 3)])
                   "s1" "user" "hi")))
    = Return (SessionSummary "s1" c 9 n :: rest).
Proof.
  apply (list_sessions_latest_first 9
           (run init_db [(None, CreateSession "s1" 1);
                         (None, CreateSession "s2" 3)]) "s1" "user" "hi").
  - by eexists.
  - by_decide.
  - apply (proj1 (Forall_forall
                    (λ s, session_id s ≠ "s1" -> updated_at s < 9) _)).
    by_decide.
Defined.

(** ** The identifiers of the message rows *)

Lemma rising_weaken lo lo' l : lo' <= lo -> rising lo l -> rising lo' l.
Proof. destruct l as [|t l]; [done|]. intros ? [? ?]. split; [lia|done]. Qed.

Lemma rising_filter (P : message_row -> Prop) `{!∀ m, Decision (P m)} lo l :
  rising lo (id <$> l) -> rising lo (id <$> filter P l).
Proof.
  revert lo. induction l as [|m l IH]; intros lo; [done|].
  rewrite fmap_cons, filter_cons. intros [Hm Hl]. destruct (decide (P m)).
  - rewrite fmap_cons. split; [done|]. by apply IH.
  - apply IH. apply (rising_weaken (id m)); [lia|done].
Qed.

Lemma rising_snoc lo (l : list message_row) m :
  rising lo (id <$> l) -> lo < id m -> Forall (λ m', id m' < id m) l ->
  rising lo (id <$> (l ++ [m])).
Proof.
  revert lo. induction l as [|m' l IH]; intros lo Hl Hlo Hall.
  - by split.
  - destruct Hl as [Hm' Hl]. apply Forall_cons in Hall as [Hlt Hall].
    rewrite <- app_comm_cons, fmap_cons. split; [done|]. by apply IH.
Qed.

(** The AUTOINCREMENT counter is at or above every [id] in [messages],
    which rise in table order. *)
Lemma step_message_ids d e :
  0 <= sqlite_sequence d
  ∧ rising 0 (id <$> messages d)
  ∧ Forall (λ m, id m <= sqlite_sequence d) (messages d) ->
  0 <= sqlite_sequence (step d e)
  ∧ rising 0 (id <$> messages (step d e))
  ∧ Forall (λ m, id m <= sqlite_sequence (step d e)) (messages (step d e)).
Proof.
  intros (Hs & Hr & Hb). destruct (step_cases d e) as [->|H]; [done|].
  destruct e as [f [sid now|sid r txt now|sid]]; cbn [snd] in H.
  - destruct H as [_ ->]. done.
  - rewrite H. cbn [added messages sqlite_sequence]. split; [lia|]. split.
    + apply rising_snoc; [done|cbn; lia|].
      eapply Forall_impl; [exact Hb|]. intros; cbn in *; lia.
    + apply Forall_app. split.
      * eapply Forall_impl; [exact Hb|]. intros; cbn in *; lia.
      * repeat constructor. cbn. lia.
  - rewrite H. cbn [deleted messages sqlite_sequence]. split; [done|]. split.
    + by apply rising_filter.
    + rewrite Forall_forall in Hb. apply Forall_forall.
      intros m [_ Hm]%list_elem_of_filter. by apply Hb.
Qed.

Lemma step_new_rows d e m :
  m ∈ messages (step d e) ->
  m ∈ messages d ∨ id m = sqlite_sequence d + 1.
Proof.
  destruct (step_cases d e) as [->|H]; [by left|].
  destruct e as [f [sid now|sid r txt now|sid]]; cbn [snd] in H.
  - destruct H as [_ ->]. by left.
  - rewrite H. cbn [added messages].
    intros [?|Hm%list_elem_of_singleton]%elem_of_app; [by left|right].
    by rewrite Hm.
  - rewrite H. cbn [deleted messages].
    intros [_ ?]%list_elem_of_filter. by left.
Qed.

(** X13. Message identifiers are never reused. In every reachable file
    the [id]s of [messages] are positive and strictly rise in table order,
    none exceeds the AUTOINCREMENT counter, and a call adds no row other
    than one whose [id] is above the counter, and so above every [id]
    handed out before, also those of rows deleted since. *)
Theorem message_ids_never_reused d :
  History.reachable d ->
  rising 0 (id <$> messages d)
  ∧ Forall (λ m, id m <= sqlite_sequence d) (messages d)
  ∧ ∀ e, sqlite_sequence d <= sqlite_sequence (step d e)
         ∧ ∀ m, m ∈ messages (step d e) ->
                m ∈ messages d ∨ sqlite_sequence d < id m.
Proof.
  intros Hd.
  assert (Hinv : 0 <= sqlite_sequence d
                 ∧ rising 0 (id <$> messages d)
                 ∧ Forall (λ m, id m <= sqlite_sequence d) (messages d)).
  { revert d Hd.
    apply (reachable_ind (λ d, 0 <= sqlite_sequence d
                 ∧ rising 0 (id <$> messages d)
                 ∧ Forall (λ m, id m <= sqlite_sequence d) (messages d))).
    - cbn. split; [lia|]. split; [done|constructor].
    - intros d e _. apply step_message_ids. }
  destruct Hinv as (Hs & Hr & Hb). split; [done|]. split; [done|].
  intros e. split.
  - destruct (step_cases d e) as [->|H]; [lia|].
    destruct e as [f [sid now|sid r txt now|sid]]; cbn [snd] in H.
    + destruct H as [_ ->]. cbn. lia.
    + rewrite H. cbn. lia.
    + rewrite H. cbn. lia.
  - intros m [?|Hm]%step_new_rows; [by left|right; lia].
Qed.

Lemma message_ids_never_reused_witness :
  rising 0
    (id <$> messages
       (run init_db [(None, AddMessage "s1" "user" "a" 1);
                     (None, AddMessage "s2" "user" "b" 2);
                     (None, DeleteSession "s2");
                     (None, AddMessage "s2" "user" "c" 3)])).
Proof.
  apply (message_ids_never_reused
           (run init_db [(None, AddMessage "s1" "user" "a" 1);
                         (None, AddMessage "s2" "user" "b" 2);
                         (None, DeleteSession "s2");
                         (None, AddMessage "s2" "user" "c" 3)])).
  by eexists.
Defined.

(** ** Creating the schema *)

(** X14. [init_db] may be run on any file and as often as one likes. On
    a working medium it returns, all three objects of the schema are
    there afterwards, and tables that were there keep their rows; a second
    run changes nothing; and after a run that the medium cut short, a
    later run ends in the same file as an undisturbed first run. On a new
    path it leaves the empty database. *)
Theorem init_db_idempotent f x :
  Schema.init_db None x
  = (Return tt,
     Schema.File (Some (default [] (Schema.sessions_table x)))
                 (Some (default [] (Schema.messages_table x)))
                 true (Schema.sequence x))
  ∧ Schema.init_db None (snd (Schema.init_db None x)) = Schema.init_db None x
  ∧ Schema.init_db None (snd (Schema.init_db f x)) = Schema.init_db None x
  ∧ (∀ d, Schema.init_db None (Schema.of_database d)
          = (Return tt, Schema.of_database d))
  ∧ Schema.init_db None Schema.blank = (Return tt, Schema.of_database init_db).
Proof.
  destruct x as [[ss|] [ms|] ix sq];
    (split; [reflexivity|]); (split; [reflexivity|]);
    (split; [|split; [by intros [? ? ?]|reflexivity]]);
    destruct f as [[|[|[|n]]]|]; reflexivity.
Qed.

(** * Further properties of the endpoints *)

Lemma serve_keeps_entry w r sid :
  Traffic.resets sid r = false ->
  Traffic.adds_to sid r = [] ->
  App.chat_sessions (App.serve w r) !! sid = App.chat_sessions w !! sid.
Proof.
  destruct r as [u now|sid' m t1 t2 t3|sid'|sid']; cbn.
  - intros Hne%bool_decide_eq_false _. by rewrite lookup_insert_ne.
  - intros _. unfold App.chat_with_space.
    destruct (App.chat_sessions w !! sid') eqn:Hs; [|done]. cbn.
    case_bool_decide; [done|]. intros _. by rewrite lookup_insert_ne.
  - intros _ _. unfold App.get_chat_history.
    by destruct (App.chat_sessions w !! sid').
  - intros Hne%bool_decide_eq_false _. unfold App.delete_session.
    destruct (App.chat_sessions w !! sid'); [|done]. cbn.
    by rewrite lookup_delete_ne.
Qed.

(** ** Unknown sessions *)

(** X15. For an identifier that is not in [chat_sessions], the chat, the
    history and the delete endpoint all raise [HTTPException] with status
    404 and a detail naming the identifier, and change nothing. *)
Theorem unknown_session_404 t1 t2 t3 w sid m :
  App.chat_sessions w !! sid = None ->
  App.chat_with_space t1 t2 t3 w sid m
  = (App.HTTPException 404
       ("Session " +:+ sid +:+ " not found. Please start a new chat session."),
     w)
  ∧ App.get_chat_history w sid
    = (App.HTTPException 404 ("Session " +:+ sid +:+ " not found."), w)
  ∧ App.delete_session w sid
    = (App.HTTPException 404 ("Session " +:+ sid +:+ " not found."), w).
Proof.
  intros H. unfold App.chat_with_space, App.get_chat_history, App.delete_session.
  by rewrite H.
Qed.

Lemma unknown_session_404_witness :
  App.get_chat_history (App.World ∅ init_db) "u9"
  = (App.HTTPException 404 "Session u9 not found.", App.World ∅ init_db).
Proof.
  exact (proj1 (proj2 (unknown_session_404 0 0 0 (App.World ∅ init_db) "u9"
                         (App.mkChatMessage "hi") (lookup_empty "u9")))).
Defined.

(** ** Reading the history back *)



(** ** Deleting a session through the API *)

(** X17. Deleting an existing session answers with the confirmation,
    removes that entry and no other, and leaves the identifier unknown: a
    second delete, a history request and a chat request on it all raise
    the 404. *)
Theorem delete_then_unknown t1 t2 t3 w sid s m :
  App.chat_sessions w !! sid = Some s ->
  fst (App.delete_session w sid)
  = App.OK ("Session " +:+ sid +:+ " deleted successfully")
  ∧ App.chat_sessions (snd (App.delete_session w sid)) !! sid = None
  ∧ (∀ k, k ≠ sid ->
          App.chat_sessions (snd (App.delete_session w sid)) !! k
          = App.chat_sessions w !! k)
  ∧ fst (App.delete_session (snd (App.delete_session w sid)) sid)
    = App.HTTPException 404 ("Session " +:+ sid +:+ " not found.")
  ∧ fst (App.get_chat_history (snd (App.delete_session w sid)) sid)
    = App.HTTPException 404 ("Session " +:+ sid +:+ " not found.")
  ∧ fst (App.chat_with_space t1 t2 t3 (snd (App.delete_session w sid)) sid m)
    = App.HTTPException 404
        ("Session " +:+ sid +:+ " not found. Please start a new chat session.").
Proof.
  intros Hs.
  assert (Hdel : App.delete_session w sid
                 = (App.OK ("Session " +:+ sid +:+ " deleted successfully"),
                    App.World (delete sid (App.chat_sessions w)) (App.store w))).
  { unfold App.delete_session. by rewrite Hs. }
  rewrite Hdel. cbn [fst snd App.chat_sessions].
  split; [done|]. split; [apply lookup_delete_eq|].
  split; [by intros k Hk; apply lookup_delete_ne|].
  unfold App.delete_session, App.get_chat_history, App.chat_with_space.
  cbn [App.chat_sessions]. by rewrite lookup_delete_eq.
Qed.

Lemma delete_then_unknown_witness :
  fst (App.delete_session
         (snd (App.delete_session
                 (App.World {[ "u1" := App.Session 1 [] ]} init_db) "u1")) "u1")
  = App.HTTPException 404 "Session u1 not found.".
Proof.
  destruct (delete_then_unknown 0 0 0
              (App.World {[ "u1" := App.Session 1 [] ]} init_db) "u1"
              (App.Session 1 []) (App.mkChatMessage "hi")
              (lookup_singleton_eq "u1" (App.Session 1 [])))
    as (_ & _ & _ & H & _).
  exact H.
Defined.

(** ** One session among others *)

(** X18. A chat request changes the entry of its own session only, does
    not change when that session was created, and neither adds nor removes
    an identifier. *)
Theorem chat_with_space_other t1 t2 t3 w sid m :
  (∀ k, k ≠ sid ->
        App.chat_sessions (snd (App.chat_with_space t1 t2 t3 w sid m)) !! k
        = App.chat_sessions w !! k)
  ∧ App.s_created_at
      <$> App.chat_sessions (snd (App.chat_with_space t1 t2 t3 w sid m)) !! sid
    = App.s_created_at <$> App.chat_sessions w !! sid
  ∧ dom (App.chat_sessions (snd (App.chat_with_space t1 t2 t3 w sid m)))
    = dom (App.chat_sessions w).
Proof.
  unfold App.chat_with_space.
  destruct (App.chat_sessions w !! sid) as [s|] eqn:Hs; cbn.
  - split; [by intros k Hk; rewrite lookup_insert_ne|].
    split; [by rewrite lookup_insert_eq|].
    apply set_eq. intros k. rewrite !elem_of_dom.
    destruct (decide (sid = k)) as [<-|Hne].
    + rewrite lookup_insert_eq, Hs. split; eauto.
    + by rewrite lookup_insert_ne.
  - by rewrite Hs.
Qed.

Lemma chat_with_space_other_witness :
  App.chat_sessions
    (snd (App.chat_with_space 2 3 4
            (App.World {[ "u1" := App.Session 1 [] ]} init_db) "u2"
            (App.mkChatMessage "hi"))) !! "u1"
  = Some (App.Session 1 []).
Proof.
  destruct (chat_with_space_other 2 3 4
              (App.World {[ "u1" := App.Session 1 [] ]} init_db) "u2"
              (App.mkChatMessage "hi")) as (H & _).
  rewrite (H "u1") by discriminate. apply lookup_singleton_eq.
Defined.

(** X19. Only [start_chat] makes an identifier known: after a chat, a
    history or a delete request every known identifier was known before,
    and after [start_chat] the known identifiers are those before and the
    new one. *)
Theorem only_start_chat_creates w r :
  (Traffic.is_start_chat r = false ->
   dom (App.chat_sessions (App.serve w r)) ⊆ dom (App.chat_sessions w))
  ∧ (∀ uuid4 now,
       dom (App.chat_sessions (App.serve w (App.POST_start_chat uuid4 now)))
       = {[uuid4]} ∪ dom (App.chat_sessions w)).
Proof.
  split; [|intros u now; cbn; apply dom_insert_L].
  destruct r as [u now|sid m t1 t2 t3|sid|sid]; cbn; [done|intros _..].
  - unfold App.chat_with_space.
    destruct (App.chat_sessions w !! sid) as [s|] eqn:Hs; cbn; [|done].
    rewrite dom_insert_L. apply union_least; [|done].
    apply singleton_subseteq_l, elem_of_dom. by rewrite Hs.
  - unfold App.get_chat_history. by destruct (App.chat_sessions w !! sid).
  - unfold App.delete_session.
    destruct (App.chat_sessions w !! sid); cbn; [|done].
    rewrite dom_delete_L. apply subseteq_difference_l. done.
Qed.

Lemma only_start_chat_creates_witness :
  dom (App.chat_sessions
         (App.serve (App.World {[ "u1" := App.Session 1 [] ]} init_db)
            (App.DELETE_chat "u2")))
  ⊆ dom (App.chat_sessions (App.World {[ "u1" := App.Session 1 [] ]} init_db)).
Proof.
  apply (only_start_chat_creates
           (App.World {[ "u1" := App.Session 1 [] ]} init_db)
           (App.DELETE_chat "u2")).
  reflexivity.
Defined.

(** ** A session under traffic *)

(** X20. Whatever requests are served, as long as none of them starts a
    chat under the session's identifier or deletes it, the session keeps
    its creation time and its history is the history before followed by
    the exchanges of the chat requests made on it, in request order;
    requests on other identifiers leave no trace in it. *)
Theorem history_accumulates w sid s rs :
  App.chat_sessions w !! sid = Some s ->
  Forall (λ r, Traffic.resets sid r = false) rs ->
  App.chat_sessions (foldl App.serve w rs) !! sid
  = Some (App.Session (App.s_created_at s)
            (App.s_messages s ++ (rs ≫= Traffic.adds_to sid))).
Proof.
  intros Hs Hrs. revert w s Hs.
  induction Hrs as [|r rs Hr _ IH]; intros w s Hs.
  { cbn. rewrite app_nil_r. by destruct s. }
  cbn [foldl mbind list_bind]. change (foldr _ _ rs) with (rs ≫= Traffic.adds_to sid).
  destruct (Traffic.adds_to sid r) as [|e l] eqn:Hadd.
  - rewrite (IH (App.serve w r) s); [done|].
    by rewrite serve_keeps_entry.
  - destruct r as [u now|sid' m t1 t2 t3|sid'|sid']; try discriminate Hadd.
    cbn in Hadd. case_bool_decide as Heq; [subst sid'|discriminate Hadd].
    rewrite <- Hadd.
    rewrite (IH _ (App.Session (App.s_created_at s)
                     (App.s_messages s ++ Traffic.exchange m t1 t2))).
    + cbn [App.s_created_at App.s_messages]. by rewrite <- app_assoc.
    + cbn [App.serve]. rewrite (chat_with_space_found _ _ _ _ _ _ _ Hs).
      cbn. by rewrite lookup_insert_eq.
Qed.

Lemma history_accumulates_witness :
  App.chat_sessions
    (foldl App.serve (App.World {[ "u1" := App.Session 1 [] ]} init_db)
       [App.POST_chat "u1" (App.mkChatMessage "a") 2 3 4;
        App.POST_start_chat "u2" 5;
        App.POST_chat "u2" (App.mkChatMessage "b") 6 7 8;
        App.DELETE_chat "u2";
        App.POST_chat "u1" (App.mkChatMessage "c") 9 10 11]) !! "u1"
  = Some (App.Session 1
            [App.ChatEntry "user" "a" 2; App.ChatEntry "assistant" "Echo: a" 3;
             App.ChatEntry "user" "c" 9; App.ChatEntry "assistant" "Echo: c" 10]).
Proof.
  exact (history_accumulates
           (App.World {[ "u1" := App.Session 1 [] ]} init_db) "u1"
           (App.Session 1 [])
           [App.POST_chat "u1" (App.mkChatMessage "a") 2 3 4;
            App.POST_start_chat "u2" 5;
            App.POST_chat "u2" (App.mkChatMessage "b") 6 7 8;
            App.DELETE_chat "u2";
            App.POST_chat "u1" (App.mkChatMessage "c") 9 10 11]
           (lookup_singleton_eq "u1" (App.Session 1 []))
           ltac:(repeat constructor)).
Defined.

(** * Further invariants of the file *)

(** X21. A call never changes when a session was created: every
    [sessions] row after a call, whatever the call and whatever fault it
    met, either has an identifier that was not in the file before, or has
    the identifier and the [created_at] of a row that was. *)
Theorem created_at_never_changes d e s :
  s ∈ sessions (step d e) ->
  session_id s ∉ session_id <$> sessions d
  ∨ ∃ s0, s0 ∈ sessions d ∧ session_id s0 = session_id s
          ∧ created_at s0 = created_at s.
Proof.
  destruct (step_cases d e) as [->|H]; [right; by exists s|].
  destruct e as [f [sid now|sid r txt now|sid]]; cbn [snd] in H.
  - destruct H as [Hnew ->]. cbn.
    intros [?|Hs%list_elem_of_singleton]%elem_of_app; [right; by exists s|left].
    rewrite Hs. by apply has_session_false.
  - rewrite H. cbn. intros (s0 & -> & Hin)%list_elem_of_fmap. right.
    exists s0. by rewrite set_updated_at_session_id, set_updated_at_created_at.
  - rewrite H. cbn. intros [_ Hin]%list_elem_of_filter. right. by exists s.
Qed.

Lemma created_at_never_changes_witness :
  session_id (SessionRow "s1" 1 9) ∉ session_id <$> sessions (created 1 init_db "s1")
  ∨ ∃ s0, s0 ∈ sessions (created 1 init_db "s1")
          ∧ session_id s0 = session_id (SessionRow "s1" 1 9)
          ∧ created_at s0 = created_at (SessionRow "s1" 1 9).
Proof.
  apply (created_at_never_changes (created 1 init_db "s1")
           (None, AddMessage "s1" "user" "hi" 9) (SessionRow "s1" 1 9)).
  by_decide.
Defined.

(** X22. Orphan messages come from [add_message] on a missing session
    and from nowhere else: if every message row belongs to an existing
    session, this still holds after [create_session], after
    [delete_session], and after [add_message] on a session that exists,
    whatever fault the call meets. *)
Theorem no_orphans_kept d e :
  no_orphans d ->
  (∀ sid r txt now, snd e = AddMessage sid r txt now ->
                    sid ∈ session_id <$> sessions d) ->
  no_orphans (step d e).
Proof.
  intros Hd He. destruct (step_cases d e) as [->|H]; [done|].
  unfold no_orphans in *. rewrite Forall_forall in Hd. apply Forall_forall.
  destruct e as [f [sid now|sid r txt now|sid]]; cbn [snd] in H.
  - destruct H as [_ ->]. cbn. intros m Hm. rewrite fmap_app.
    apply elem_of_app. left. by apply Hd.
  - rewrite H. cbn. rewrite session_ids_updated.
    intros m [Hm|Hm%list_elem_of_singleton]%elem_of_app; [by apply Hd|].
    rewrite Hm. cbn. by apply (He sid r txt now).
  - rewrite H. cbn. rewrite session_ids_filter.
    intros m [Hne Hm]%list_elem_of_filter.
    apply list_elem_of_filter. split; [done|by apply Hd].
Qed.

Lemma no_orphans_kept_witness :
  no_orphans (step (created 1 init_db "s1") (None, AddMessage "s1" "user" "hi" 2)).
Proof.
  apply (no_orphans_kept (created 1 init_db "s1")
           (None, AddMessage "s1" "user" "hi" 2)).
  - constructor.
  - intros sid r txt now [= <- _ _ _]. by_decide.
Defined.
